(** * django-addressbook: the model layer of [addressbook/models.py]

    A shallow embedding of the address book's models: the timestamp mixin
    ([DateMixin.save]), the derived strings ([search_index], [sort_name]),
    the resolution of a [Party] row to its concrete child ([Party.child])
    and the merged listing ([PartyManager.children]).

    Python values are embedded as follows.  A nullable column
    ([null=True]) is an [option]; a [CharField] without [null=True] is a
    [string].  An exception is a value of [exn] carried by [result].
    Primary keys are integers ([Z]); a table is a finite map from the
    primary key to the row.  The clock read by [datetime.now] and the key
    that the database gives to a row inserted without one are explicit
    arguments of the operations that use them.  A path, and the text of a
    key, are [unicode] strings: lists of code points. *)

From stdpp Require Import gmap strings list sorting.
From Stdlib Require Import DecimalString DecimalZ DecimalPos.

Local Open Scope Z_scope.

(** ** Python: exceptions, strings, [sorted] *)

Module Py.

(** The model classes whose [DoesNotExist] is raised in [models.py]. *)
Inductive model := PersonModel | OrganizationModel.

(** The exceptions that the modelled code can raise. *)
Inductive exn :=
| DoesNotExist (m : model)
| TypeError.

(** The outcome of evaluating an expression: a value, or a raised
    exception. *)
Inductive result (A : Type) :=
| Ok (a : A)
| Raise (e : exn).
Arguments Ok {A} a.
Arguments Raise {A} e.

(** Sequencing: an exception raised by the first computation skips the
    rest. *)
#[export] Instance result_ret : MRet result := fun A a => Ok a.
#[export] Instance result_bind : MBind result := fun A B f r =>
  match r with
  | Ok a => f a
  | Raise e => Raise e
  end.

(** [sep.join(frags)], first pass: every item has to be a string; [None]
    raises [TypeError] ("sequence item i: expected string, NoneType
    found"). *)
Fixpoint join_items (frags : list (option string)) : result (list string) :=
  match frags with
  | [] => Ok []
  | Some s :: frags' => ss ← join_items frags'; Ok (s :: ss)
  | None :: _ => Raise TypeError
  end.

(** [sep.join(frags)], second pass: the items are copied one after the
    other, the separator before every item but the first. *)
Fixpoint join_copy (sep : string) (acc : string) (ss : list string) : string :=
  match ss with
  | [] => acc
  | s :: ss' => join_copy sep (acc +:+ sep +:+ s) ss'
  end.

Definition join (sep : string) (frags : list (option string)) : result string :=
  ss ← join_items frags;
  match ss with
  | [] => Ok ""
  | s :: ss' => Ok (join_copy sep s ss')
  end.

(** [a < b] on strings: lexicographic on the character codes, a proper
    prefix being smaller; upper and lower case are different codes. *)
Definition str_lt (a b : string) : bool :=
  match String.compare a b with
  | Lt => true
  | _ => false
  end.

(** [a <= b], that is [not (b < a)]. *)
Definition str_le (a b : string) : Prop := str_lt b a = false.

Section Sorted.
Context {A : Type}.

(** One step of the stable sort: [kx] goes before the first item whose key
    is not smaller than its own, so that among equal keys the earlier item
    of the input stays first.  Only [<] is used on keys, as in Python. *)
Fixpoint insort (kx : string * A) (l : list (string * A)) : list (string * A) :=
  match l with
  | [] => [kx]
  | ky :: l' => if str_lt ky.1 kx.1 then ky :: insort kx l' else kx :: ky :: l'
  end.

Fixpoint stable_sort (l : list (string * A)) : list (string * A) :=
  match l with
  | [] => []
  | kx :: l' => insort kx (stable_sort l')
  end.

(** [sorted(l, key=key)]: the key of every item is computed once, from
    left to right (an exception of [key] leaves [sorted]); the items are
    then ordered by their keys with a stable sort.  A stable sort has one
    possible outcome, here computed by insertion. *)
Definition sorted (key : A -> result string) (l : list A) : result (list A) :=
  kl ← mapM (fun x => k ← key x; Ok (k, x)) l;
  Ok (stable_sort kl).*2.

(** The order of the outcome of [sorted]: both keys are defined and the
    first is not greater than the second. *)
Definition key_le (key : A -> result string) (x y : A) : Prop :=
  exists kx ky, key x = Ok kx /\ key y = Ok ky /\ str_le kx ky.

End Sorted.

End Py.

(** ** [DateMixin]: created and modified dates *)

Module DateMixin.
Import Py.

(** A [datetime], as a point on the clock. *)
Definition datetime := Z.

(** An instance of a model that inherits [DateMixin]: the primary key
    ([None] until the database has assigned one, unless the caller gave
    one), the two dates, and the fields [F] of the concrete model. *)
Record t (F : Type) := Build {
  id : option Z;
  date_added : datetime;
  date_modified : option datetime;
  fields : F
}.
Arguments Build {F} _ _ _ _.
Arguments id {F} _.
Arguments date_added {F} _.
Arguments date_modified {F} _.
Arguments fields {F} _.

Section Save.
Context {F : Type}.

(** The constructor of the model with the defaults of the two date
    columns: [date_added] has [default=datetime.now], evaluated when the
    instance is built, and [date_modified] is null. *)
Definition new (now : datetime) (pk : option Z) (f : F) : t F :=
  Build pk now None f.

(** The truth value of [self.id]: [None] and [0] are false. *)
Definition truthy (pk : option Z) : bool :=
  match pk with
  | None => false
  | Some k => negb (k =? 0)
  end.

(** [models.Model.save], on the table of the model: the row of the
    instance is written under its primary key, replacing the row stored
    there if there is one; an instance without a key is inserted under the
    key [fresh] that the database gives to the new row, which it then
    carries.  Which key that is, is decided by the database and not by this
    code: a sequence, the largest row id plus one (which is [0] after the
    key [-1]), and for a person or an organization the key of the parent
    party row, written by the same save.  Like the reading of the clock, it
    is therefore an argument, and nothing is assumed about it. *)
Definition Model_save (fresh : Z) (self : t F) (table : gmap Z (t F))
  : t F * gmap Z (t F) :=
  let pk := default fresh (id self) in
  let self' := Build (Some pk) (date_added self) (date_modified self) (fields self) in
  (self', <[pk := self']> table).

(** [DateMixin.save], at the time [now]; [fresh] is the key that the
    database gives to the row if this save inserts it without one. *)
Definition save (now : datetime) (fresh : Z) (self : t F) (table : gmap Z (t F))
  : t F * gmap Z (t F) :=
  let self1 :=
    if truthy (id self)
    then Build (id self) (date_added self) (Some now) (fields self)
    else self in
  Model_save fresh self1 table.

(** A caller that edits the fields of an instance and saves it, once per
    item of [edits], each save at its own time.  Only the first save of an
    instance without a key asks the database for one, so one [fresh] serves
    the whole run. *)
Fixpoint resave (fresh : Z) (edits : list (datetime * F)) (self : t F)
    (table : gmap Z (t F)) : t F * gmap Z (t F) :=
  match edits with
  | [] => (self, table)
  | (now, f) :: edits' =>
      let '(self', table') :=
        save now fresh (Build (id self) (date_added self) (date_modified self) f) table in
      resave fresh edits' self' table'
  end.

End Save.

End DateMixin.

(** ** The generically related models *)

(** The six models that mix in [GenericRelationshipMixin] and [DateMixin]
    take their [save] from [DateMixin]; two of them are spelled out, the
    email address and the street address, whose [search_index] joins
    several columns. *)
Module EmailAddress.
Import Py.

Record fields := Build {
  content_type : Z;
  object_id : Z;
  address : option string;
  type : option string
}.

Definition t := DateMixin.t fields.

Definition search_index (self : t) : result (option string) :=
  Ok (address (DateMixin.fields self)).

End EmailAddress.

Module StreetAddress.
Import Py.

Record fields := Build {
  content_type : Z;
  object_id : Z;
  address : option string;
  city : option string;
  state : option string;
  zip : option string;
  type : option string
}.

Definition t := DateMixin.t fields.

Definition search_index (self : t) : result string :=
  let f := DateMixin.fields self in
  let frags := [address f; city f; state f; zip f] in
  join " " frags.

End StreetAddress.

(** ** [Organization] and [Person] *)

Module Organization.
Import Py.

Record fields := Build {
  name : string
}.

Definition t := DateMixin.t fields.

Definition search_index (self : t) : result string :=
  Ok (name (DateMixin.fields self)).

Definition sort_name (self : t) : result string :=
  Ok (name (DateMixin.fields self)).

End Organization.

Module Person.
Import Py.

(** [organization] is the key of the organization the person belongs to,
    if any. *)
Record fields := Build {
  organization : option Z;
  title : string;
  first_name : string;
  middle_name : option string;
  last_name : option string
}.

Definition t := DateMixin.t fields.

Definition search_index (self : t) : result string :=
  let f := DateMixin.fields self in
  let frags := [Some (first_name f); middle_name f; last_name f] in
  join " " frags.

Definition sort_name (self : t) : result string :=
  let f := DateMixin.fields self in
  let frags := [Some (first_name f); middle_name f; last_name f] in
  join " " frags.

End Person.

(** ** [Party] and its manager *)

Module Party.
Import Py.

(** A row of the party table: the key it shares with its child. *)
Record t := Build {
  id : Z
}.

(** The three tables of the multi-table inheritance.  [party] lists the
    party rows in the order in which [all()] yields them; the child tables
    are keyed by the key of the parent row, so a party has at most one
    person and at most one organization, and nothing prevents it from having
    one of each, or none. *)
Record store := Store {
  party : list t;
  person : gmap Z Person.t;
  organization : gmap Z Organization.t
}.

(** The queries sent to the database. *)
Inductive query :=
| SelectParties
| SelectPerson (pk : Z)
| SelectOrganization (pk : Z).

(** A computation that reads the database: it yields a result and the
    queries it has sent, in order.  A query sent before an exception was
    raised stays sent. *)
Definition DB (A : Type) : Type := store -> result A * list query.

#[export] Instance DB_ret : MRet DB := fun A a _ => (Ok a, []).
#[export] Instance DB_bind : MBind DB := fun A B f m st =>
  match m st with
  | (Ok a, qs) => let '(r, qs') := f a st in (r, qs ++ qs')
  | (Raise e, qs) => (Raise e, qs)
  end.

(** An expression that does not read the database. *)
Definition pure {A} (r : result A) : DB A := fun _ => (r, []).

(** [try: body / except cls.DoesNotExist: handler]; any other exception of
    the body goes on to the caller. *)
Definition try_except {A} (body : DB A) (cls : model) (handler : DB A) : DB A :=
  fun st =>
    match body st with
    | (Raise (DoesNotExist PersonModel), qs) =>
        match cls with
        | PersonModel => let '(r, qs') := handler st in (r, qs ++ qs')
        | OrganizationModel => (Raise (DoesNotExist PersonModel), qs)
        end
    | (Raise (DoesNotExist OrganizationModel), qs) =>
        match cls with
        | OrganizationModel => let '(r, qs') := handler st in (r, qs ++ qs')
        | PersonModel => (Raise (DoesNotExist OrganizationModel), qs)
        end
    | other => other
    end.

Definition run {A} (m : DB A) (st : store) : result A := (m st).1.
Definition queries {A} (m : DB A) (st : store) : list query := (m st).2.

(** [self.person]: the descriptor of the one-to-one link from the child,
    which raises [Person.DoesNotExist] when no person row has the key. *)
Definition get_person (self : t) : DB Person.t := fun st =>
  (match person st !! id self with
   | Some p => Ok p
   | None => Raise (DoesNotExist PersonModel)
   end, [SelectPerson (id self)]).

(** [self.organization], likewise. *)
Definition get_organization (self : t) : DB Organization.t := fun st =>
  (match organization st !! id self with
   | Some o => Ok o
   | None => Raise (DoesNotExist OrganizationModel)
   end, [SelectOrganization (id self)]).

(** What [child] returns: an instance of one of the two classes. *)
Inductive concrete :=
| IsPerson (p : Person.t)
| IsOrganization (o : Organization.t).

(** [k.sort_name], looked up in the class of [k]. *)
Definition sort_name (k : concrete) : result string :=
  match k with
  | IsPerson p => Person.sort_name p
  | IsOrganization o => Organization.sort_name o
  end.

Definition child (self : t) : DB concrete :=
  try_except
    (p ← get_person self; mret (IsPerson p))
    PersonModel
    (o ← get_organization self; mret (IsOrganization o)).

End Party.

Module PartyManager.
Import Py Party.

(** [self.all()]: every row of the party table. *)
Definition all : DB (list Party.t) := fun st => (Ok (party st), [SelectParties]).

Definition children : DB (list concrete) :=
  ps ← all;
  cs ← mapM child ps;
  pure (sorted sort_name cs).

End PartyManager.

(** ** [Website] *)

Module Website.
Import Py.

(** [a + b] on two values that are strings or [None]: the strings are put
    together; [None] on either side raises [TypeError]. *)
Definition add (a b : option string) : result string :=
  match a, b with
  | Some x, Some y => Ok (x +:+ y)
  | _, _ => Raise TypeError
  end.

Record fields := Build {
  content_type : Z;
  object_id : Z;
  name : option string;
  url : option string;
  type : option string
}.

Definition t := DateMixin.t fields.

(** [self.name + ' ' + self.url], the sums taken from the left. *)
Definition search_index (self : t) : result string :=
  let f := DateMixin.fields self in
  s ← add (name f) (Some " ");
  add (Some s) (url f).

End Website.

(** ** [urls.py], and the permalinks of [models.py] *)

Module Urls.

(** A [unicode] string, as the list of its code points: the paths that the
    resolver is given, and the text of a key, are such strings. *)
Definition unicode := list N.

(** The code points of a literal of the source. *)
Fixpoint codes (s : string) : unicode :=
  match s with
  | EmptyString => []
  | String c s' => Ascii.N_of_ascii c :: codes s'
  end.

(** The byte string of a text whose code points are below 256. *)
Fixpoint chars (t : unicode) : string :=
  match t with
  | [] => EmptyString
  | c :: t' => String (Ascii.ascii_of_N c) (chars t')
  end.

(** The regular expressions of [urls.py] are all of one shape: [^], then
    pieces of text and groups [(?P<name>\d+)], then [$].  A [token] is one
    such piece; the two anchors are understood. *)
Inductive token :=
| Chars (text : string)
| Digits (group : string).

(** The extra arguments that a pattern hands to its view. *)
Inductive arg :=
| searchqueryset (models : list Py.model) (order_by : string)
| template (file : string)
| form (m : Py.model)
| model (m : Py.model).

(** One [url(regex, view, kwargs, name=name)]. *)
Record url := Url {
  regex : list token;
  view : string;
  kwargs : list arg;
  name : string
}.

(** [patterns(prefix, ...)]: the views are named inside the module
    [prefix]. *)
Definition patterns (prefix : string) (urls : list url) : list url :=
  (fun u => Url (regex u) (prefix +:+ "." +:+ view u) (kwargs u) (name u)) <$> urls.

Definition urlpatterns : list url :=
  patterns "addressbook.views" [
    Url [] "party_list"
      [searchqueryset [Py.OrganizationModel; Py.PersonModel] "sort_name";
       template "addressbook/dashboard.html"]
      "addressbook_dashboard";
    Url [Chars "people/"] "party_list"
      [searchqueryset [Py.PersonModel] "sort_name";
       template "addressbook/people.html"]
      "addressbook_people";
    Url [Chars "people/add/"] "add_party"
      [form Py.PersonModel; template "addressbook/person_add.html"]
      "addressbook_person_add";
    Url [Chars "people/"; Digits "object_id"; Chars "/"] "person_detail"
      []
      "addressbook_person_detail";
    Url [Chars "people/"; Digits "object_id"; Chars "/edit/"] "edit_party"
      [model Py.PersonModel; form Py.PersonModel;
       template "addressbook/person_edit.html"]
      "addressbook_person_edit";
    Url [Chars "organizations/"] "party_list"
      [searchqueryset [Py.OrganizationModel] "sort_name";
       template "addressbook/organizations.html"]
      "addressbook_organizations";
    Url [Chars "organizations/add/"] "add_party"
      [form Py.OrganizationModel; template "addressbook/organization_add.html"]
      "addressbook_organization_add";
    Url [Chars "organizations/"; Digits "object_id"; Chars "/"] "organization_detail"
      []
      "addressbook_organization_detail";
    Url [Chars "organizations/"; Digits "object_id"; Chars "/edit/"] "edit_party"
      [model Py.OrganizationModel; form Py.OrganizationModel;
       template "addressbook/organization_edit.html"]
      "addressbook_organization_edit"
  ].

(** The ten digits [0] to [9]. *)
Definition ascii_digit (c : N) : bool := ((48 <=? c) && (c <=? 57))%N.

(** Whether a table of digits holds, of the characters below 128, the ten
    digits and nothing else. *)
Definition ascii_digits_only (Nd : N → bool) : bool :=
  forallb (fun c => Bool.eqb (Nd c) (ascii_digit c)) (N.of_nat <$> seq 0 128).

(** What is left of [s] after the text [text], when [s] starts with it. *)
Fixpoint strip (text s : unicode) : option unicode :=
  match text, s with
  | [], _ => Some s
  | a :: text', b :: s' => if (a =? b)%N then strip text' s' else None
  | _ :: _, [] => None
  end.

(** [$]: the end of the string, or the line feed that ends it. *)
Definition at_end (s : unicode) : bool :=
  match s with
  | [] => true
  | [c] => (c =? 10)%N
  | _ => false
  end.

Inductive exn := Resolver404 | NoReverseMatch.

Inductive outcome (A : Type) :=
| Return (a : A)
| Raised (e : exn).
Arguments Return {A} a.
Arguments Raised {A} e.

(** The names of the groups of an expression. *)
Fixpoint groups (r : list token) : list string :=
  match r with
  | [] => []
  | Chars _ :: r' => groups r'
  | Digits group :: r' => group :: groups r'
  end.

Definition value (kw : list (string * unicode)) (key : string) : unicode :=
  match list_find (fun kv => kv.1 = key) kw with
  | Some (_, (_, v)) => v
  | None => []
  end.

(** The text of an expression with the values of [kw] in the place of its
    groups. *)
Fixpoint fill (r : list token) (kw : list (string * unicode)) : unicode :=
  match r with
  | [] => []
  | Chars text :: r' => codes text ++ fill r' kw
  | Digits group :: r' => value kw group ++ fill r' kw
  end.

(** [set(kw.keys()) == set(groups)]. *)
Definition same_keys (kw : list (string * unicode)) (gs : list string) : bool :=
  forallb (fun k => bool_decide (k ∈ gs)) kw.*1 &&
  forallb (fun g => bool_decide (g ∈ kw.*1)) gs.

(** [unicode(self.id)]: [None] for an instance without a key, else the
    decimal digits of the key, after [-] if it is negative. *)
Definition unicode_id (pk : option Z) : unicode :=
  codes match pk with
        | None => "None"
        | Some k => DecimalString.NilEmpty.string_of_int (Z.to_int k)
        end.

Section Regex.

(** The expressions of a URLconf are compiled with [re.UNICODE], and the
    path is a [unicode] string: [\d] matches the decimal digits of every
    script, as the Unicode database of the interpreter lists them (the
    category Nd), not the ten ASCII digits alone.  [Nd] is that table; the
    definitions take it as it is, and what is proved assumes of it only that
    below 128 it holds the digits [0] to [9] and nothing else. *)
Context (Nd : N → bool).

(** A string of digits. *)
Definition all_digits (s : unicode) : bool := forallb Nd s.

(** [\d+] in front of the rest [k] of the expression: the character read
    has to be a digit; the longer runs of digits are tried before the
    shorter ones.  [seen] holds the digits read so far. *)
Fixpoint digits_then {R} (k : unicode → unicode → option R) (seen s : unicode)
  : option R :=
  match s with
  | [] => None
  | c :: s' =>
      if Nd c then
        match digits_then k (seen ++ [c]) s' with
        | Some r => Some r
        | None => k (seen ++ [c]) s'
        end
      else None
  end.

(** The match of an expression at the start of [s]: the groups with the
    text each has matched, in the order of the expression. *)
Fixpoint regex_match (r : list token) (found : list (string * unicode)) (s : unicode)
  : option (list (string * unicode)) :=
  match r with
  | [] => if at_end s then Some found else None
  | Chars text :: r' =>
      match strip (codes text) s with
      | Some s' => regex_match r' found s'
      | None => None
      end
  | Digits group :: r' =>
      digits_then (fun d s' => regex_match r' (found ++ [(group, d)]) s') [] s
  end.

(** The resolver of the module: the patterns are tried in order and the
    first that matches the path answers; none raises [Resolver404]. *)
Fixpoint resolve_in (urls : list url) (path : unicode)
  : outcome (url * list (string * unicode)) :=
  match urls with
  | [] => Raised Resolver404
  | u :: urls' =>
      match regex_match (regex u) [] path with
      | Some found => Return (u, found)
      | None => resolve_in urls' path
      end
  end.

Definition resolve (path : unicode) : outcome (url * list (string * unicode)) :=
  resolve_in urlpatterns path.

(** [reverse(name, kwargs=kw)]: a pattern of that name whose groups are the
    keys of [kw] is filled in, and answers if the text obtained matches its
    expression; when no pattern answers, [NoReverseMatch] is raised. *)
Fixpoint reverse_in (urls : list url) (viewname : string) (kw : list (string * unicode))
  : outcome unicode :=
  match urls with
  | [] => Raised NoReverseMatch
  | u :: urls' =>
      if bool_decide (name u = viewname) && same_keys kw (groups (regex u)) then
        match regex_match (regex u) [] (fill (regex u) kw) with
        | Some _ => Return (fill (regex u) kw)
        | None => reverse_in urls' viewname kw
        end
      else reverse_in urls' viewname kw
  end.

(** [mount] is the text that stands before the paths of this module: the
    script prefix and the place at which the project includes [urls.py]. *)
Definition reverse (mount : unicode) (viewname : string) (kw : list (string * unicode))
  : outcome unicode :=
  match reverse_in urlpatterns viewname kw with
  | Return path => Return (mount ++ path)
  | Raised e => Raised e
  end.

(** [Organization.get_absolute_url], through [permalink]. *)
Definition Organization_get_absolute_url (mount : unicode) (self : Organization.t)
  : outcome unicode :=
  reverse mount "addressbook_organization_detail"
    [("object_id", unicode_id (DateMixin.id self))].

(** [Person.get_absolute_url], through [permalink]. *)
Definition Person_get_absolute_url (mount : unicode) (self : Person.t)
  : outcome unicode :=
  reverse mount "addressbook_person_detail"
    [("object_id", unicode_id (DateMixin.id self))].

End Regex.

End Urls.

(** ** Equality of outcomes *)

(** Whether two outcomes are the same can be decided, as soon as it can for
    the values. *)
Module PyEq.
Import Py.

#[export] Instance model_eq_dec : EqDecision model.
Proof. solve_decision. Defined.

#[export] Instance exn_eq_dec : EqDecision exn.
Proof. solve_decision. Defined.

#[export] Instance result_eq_dec {A} `{EqDecision A} : EqDecision (result A).
Proof. solve_decision. Defined.

End PyEq.

(** ** Sample rows *)

Module Sample.

Definition person (pk : Z) (first : string) (middle last : option string) : Person.t :=
  DateMixin.Build (Some pk) 0 None (Person.Build None "" first middle last).

Definition organization (pk : Z) (name : string) : Organization.t :=
  DateMixin.Build (Some pk) 0 None (Organization.Build name).

(** A person built from the first name alone: the two nullable names get
    the default of a nullable column, [None]. *)
Definition jane : Person.t := person 1 "Jane" None None.

(** The same person with the two names given as empty strings. *)
Definition jane_blank : Person.t := person 1 "Jane" (Some "") (Some "").

Definition main_st : StreetAddress.t :=
  DateMixin.Build (Some 1) 0 None
    (StreetAddress.Build 12 1 (Some "1 Main St") (Some "Springfield") (Some "IL")
       (Some "62701") (Some "home")).

(** A street address of which only the first line was given. *)
Definition no_city : StreetAddress.t :=
  DateMixin.Build (Some 2) 0 None
    (StreetAddress.Build 12 1 (Some "1 Main St") None None None None).

(** Two persons and one organization, stored in the order of their keys. *)
Definition contacts : Party.store :=
  Party.Store [Party.Build 1; Party.Build 2; Party.Build 3]
    (<[1 := person 1 "Bob" (Some "") (Some "Young")]>
       (<[2 := person 2 "Alice" (Some "") (Some "Zed")]> ∅))
    (<[3 := organization 3 "Acme"]> ∅).

(** A party whose key is the key of a person and of an organization. *)
Definition doubled : Party.store :=
  Party.Store [Party.Build 4]
    (<[4 := person 4 "Ada" (Some "") (Some "Byron")]> ∅)
    (<[4 := organization 4 "Analytical Engines"]> ∅).

(** A party row without a child, after the row of an organization. *)
Definition orphaned : Party.store :=
  Party.Store [Party.Build 3; Party.Build 9] ∅ (<[3 := organization 3 "Acme"]> ∅).

(** A party row without a child, alone in its table. *)
Definition lone : Party.store := Party.Store [Party.Build 9] ∅ ∅.

(** An email address built with the key [7], and a table of email
    addresses in which no row has that key. *)
Definition keyed_email : EmailAddress.t :=
  DateMixin.new 100 (Some 7)
    (EmailAddress.Build 12 4 (Some "ada@example.org") (Some "work")).

Definition emails : gmap Z EmailAddress.t :=
  <[1 := DateMixin.Build (Some 1) 50 None
           (EmailAddress.Build 12 1 (Some "bob@example.org") (Some "main"))]> ∅.

(** An organization built with the key [5], to be saved in an empty
    table. *)
Definition keyed_organization : Organization.t :=
  DateMixin.new 100 (Some 5) (Organization.Build "Acme").

End Sample.

(** ** More sample rows *)

Module Sample2.

Definition alice : Person.t := Sample.person 2 "Alice" (Some "") (Some "Zed").

Definition bob : Person.t := Sample.person 1 "Bob" (Some "") (Some "Young").

(** Two organizations of one name, stored on either side of a person. *)
Definition namesakes : Party.store :=
  Party.Store [Party.Build 3; Party.Build 1; Party.Build 5]
    (<[1 := bob]> ∅)
    (<[3 := Sample.organization 3 "Acme"]> (<[5 := Sample.organization 5 "Acme"]> ∅)).

(** The store [Sample.contacts] with its party rows in the opposite
    order. *)
Definition contacts_reversed : Party.store :=
  Party.Store [Party.Build 3; Party.Build 2; Party.Build 1]
    (Party.person Sample.contacts) (Party.organization Sample.contacts).

(** An organization, and a person built from the first name alone. *)
Definition with_jane : Party.store :=
  Party.Store [Party.Build 3; Party.Build 1]
    (<[1 := Sample.jane]> ∅)
    (<[3 := Sample.organization 3 "Acme"]> ∅).

(** An email address with the key [0]. *)
Definition email_zero : EmailAddress.t :=
  DateMixin.Build (Some 0) 10 None
    (EmailAddress.Build 12 4 (Some "ada@example.org") (Some "work")).

Definition email_edit : EmailAddress.fields :=
  EmailAddress.Build 12 4 (Some "ada@example.com") (Some "work").

(** A table of decimal digits that holds more than the digits [0] to [9]:
    also the Arabic-Indic digits (U+0660 to U+0669) and their eastern forms
    (U+06F0 to U+06F9). *)
Definition digits (c : N) : bool :=
  (Urls.ascii_digit c || (1632 <=? c) && (c <=? 1641) || (1776 <=? c) && (c <=? 1785))%N.

(** An organization that has not been saved yet. *)
Definition unsaved_organization : Organization.t :=
  DateMixin.new 100 None (Organization.Build "Acme").

End Sample2.

(** * Properties *)

(** ** Strings: [join] and the order *)

Section PyFacts.
Import Py.

Lemma append_assoc (a b c : string) : (a +:+ b) +:+ c = a +:+ b +:+ c.
Proof.
  induction a as [|x a IH]; [done|].
  change (String x ((a +:+ b) +:+ c) = String x (a +:+ b +:+ c)).
  by rewrite IH.
Qed.

(** The copying pass of [join] builds the string that the library's
    [String.concat] describes. *)
Lemma join_copy_concat (sep s : string) (ss : list string) (acc : string) :
  join_copy sep (acc +:+ s) ss = acc +:+ String.concat sep (s :: ss).
Proof.
  revert s acc. induction ss as [|s' ss IH]; intros s acc; [done|].
  cbn [join_copy]. rewrite <-(append_assoc (acc +:+ s) sep s'), IH.
  change (String.concat sep (s :: s' :: ss))
    with (s +:+ sep +:+ String.concat sep (s' :: ss)).
  by rewrite !append_assoc.
Qed.

Lemma join_items_Some (ss : list string) : join_items (Some <$> ss) = Ok ss.
Proof. induction ss as [|s ss IH]; [done|]. cbn. by rewrite IH. Qed.

Lemma join_items_None (frags : list (option string)) :
  None ∈ frags → join_items frags = Raise TypeError.
Proof.
  induction frags as [|[s|] frags IH]; intros Hin.
  - by apply elem_of_nil in Hin.
  - apply elem_of_cons in Hin as [?|Hin]; [done|]. cbn. by rewrite IH.
  - done.
Qed.

(** [join] of strings never raises, and is [String.concat]. *)
Lemma join_Some (sep : string) (ss : list string) :
  join sep (Some <$> ss) = Ok (String.concat sep ss).
Proof.
  unfold join. rewrite join_items_Some. cbn.
  destruct ss as [|s ss]; [done|].
  f_equal. apply (join_copy_concat sep s ss "").
Qed.

(** [join] raises [TypeError] as soon as one item is [None]. *)
Lemma join_None (sep : string) (frags : list (option string)) :
  None ∈ frags → join sep frags = Raise TypeError.
Proof. intros Hin. unfold join. by rewrite join_items_None. Qed.

Lemma str_le_compare (a b : string) : str_le a b ↔ String.compare a b ≠ Gt.
Proof.
  unfold str_le, str_lt. rewrite (String.compare_antisym a b).
  destruct (String.compare b a); cbn; split; intros; done.
Qed.

Lemma compare_not_Gt_trans (a b c : string) :
  String.compare a b ≠ Gt → String.compare b c ≠ Gt → String.compare a c ≠ Gt.
Proof.
  revert b c. induction a as [|x a IH]; intros [|y b] [|z c]; cbn; try done.
  unfold Ascii.compare.
  destruct (N.compare_spec (Ascii.N_of_ascii x) (Ascii.N_of_ascii y)) as [Hxy|Hxy|Hxy];
    destruct (N.compare_spec (Ascii.N_of_ascii y) (Ascii.N_of_ascii z)) as [Hyz|Hyz|Hyz];
    destruct (N.compare_spec (Ascii.N_of_ascii x) (Ascii.N_of_ascii z)) as [Hxz|Hxz|Hxz];
    try done; try lia.
  apply IH.
Qed.

Lemma str_le_refl (a : string) : str_le a a.
Proof.
  apply str_le_compare. intros H.
  pose proof (String.compare_antisym a a) as Ha. rewrite H in Ha. done.
Qed.

Lemma str_le_trans (a b c : string) : str_le a b → str_le b c → str_le a c.
Proof. rewrite !str_le_compare. apply compare_not_Gt_trans. Qed.

Lemma str_lt_le (a b : string) : str_lt a b = true → str_le a b.
Proof.
  unfold str_le, str_lt. rewrite (String.compare_antisym b a).
  by destruct (String.compare a b).
Qed.

End PyFacts.

(** ** [sorted]: a stable sort by key *)

Section SortedFacts.
Import Py.
Context {A : Type}.
Implicit Types (kx : string * A) (l : list (string * A)).

Lemma insort_perm kx l : insort kx l ≡ₚ kx :: l.
Proof.
  induction l as [|ky l IH]; cbn; [done|].
  destruct (str_lt ky.1 kx.1); [|done].
  rewrite IH. apply Permutation_swap.
Qed.

Lemma stable_sort_perm l : stable_sort l ≡ₚ l.
Proof.
  induction l as [|kx l IH]; cbn; [done|].
  by rewrite insort_perm, IH.
Qed.

Lemma insort_sorted kx l :
  StronglySorted (fun x y => str_le x.1 y.1) l →
  StronglySorted (fun x y => str_le x.1 y.1) (insort kx l).
Proof.
  induction 1 as [|ky l Hl IH Hky]; cbn.
  - repeat constructor.
  - destruct (str_lt ky.1 kx.1) eqn:Hlt.
    + constructor; [done|].
      rewrite insort_perm. constructor; [by apply str_lt_le|done].
    + constructor; [by constructor|].
      constructor; [done|].
      eapply Forall_impl; [exact Hky|].
      intros kz Hz. by eapply str_le_trans.
Qed.

Lemma stable_sort_sorted l :
  StronglySorted (fun x y => str_le x.1 y.1) (stable_sort l).
Proof.
  induction l as [|kx l IH]; cbn; [constructor|]. by apply insort_sorted.
Qed.

Lemma str_lt_ne (a b : string) : str_lt a b = true → a ≠ b.
Proof. intros Hlt ->. by rewrite (str_le_refl b) in Hlt. Qed.

(** Stability: the items of one key keep the order they had. *)
Lemma insort_stable (k : string) kx l :
  filter (fun y => y.1 = k) (insort kx l) = filter (fun y => y.1 = k) (kx :: l).
Proof.
  induction l as [|ky l IH]; cbn; [done|].
  destruct (str_lt ky.1 kx.1) eqn:Hlt; [|done].
  apply str_lt_ne in Hlt.
  rewrite !filter_cons in IH |- *. rewrite IH.
  repeat case_decide; done || congruence.
Qed.

Lemma stable_sort_stable (k : string) l :
  filter (fun y => y.1 = k) (stable_sort l) = filter (fun y => y.1 = k) l.
Proof.
  induction l as [|kx l IH]; cbn; [done|].
  rewrite insort_stable, !filter_cons, IH. done.
Qed.

Context (key : A → result string).

Lemma keys_spec (xs : list A) l :
  mapM (fun x => k ← key x; Ok (k, x)) xs = Ok l →
  l.*2 = xs ∧ Forall (fun kx => key kx.2 = Ok kx.1) l.
Proof.
  revert l. induction xs as [|x xs IH]; intros l; cbn.
  - intros [= <-]. by split.
  - destruct (key x) as [k|e] eqn:Hk; cbn; [|done].
    destruct (mapM _ xs) as [l'|e]; cbn; [|done].
    intros [= <-]. destruct (IH l' eq_refl) as [<- Hall].
    split; [done|]. by constructor.
Qed.

Lemma keys_total (xs : list A) :
  Forall (fun x => exists k, key x = Ok k) xs →
  exists l, mapM (fun x => k ← key x; Ok (k, x)) xs = Ok l.
Proof.
  induction 1 as [|x xs [k Hk] _ [l Hl]]; cbn; [by eexists|].
  rewrite Hk; cbn. rewrite Hl; cbn. by eexists.
Qed.

Lemma keys_raise (xs : list A) (e : exn) :
  mapM (fun x => k ← key x; Ok (k, x)) xs = Raise e →
  exists x, x ∈ xs ∧ key x = Raise e.
Proof.
  induction xs as [|x xs IH]; cbn; [done|].
  destruct (key x) as [k|e'] eqn:Hk; cbn.
  - destruct (mapM _ xs) as [l'|e']; cbn; [done|].
    intros [= ->]. destruct (IH eq_refl) as (y & Hy & Hr).
    exists y. split; [by right|done].
  - intros [= ->]. exists x. split; [by left|done].
Qed.

Lemma sorted_keys l :
  Forall (fun kx => key kx.2 = Ok kx.1) l →
  StronglySorted (fun x y => str_le x.1 y.1) l →
  StronglySorted (key_le key) l.*2.
Proof.
  intros Hall. induction 1 as [|kx l Hl IH Hkx]; cbn; [constructor|].
  apply Forall_cons in Hall as [Hk Hall].
  constructor; [by apply IH|].
  apply Forall_fmap, Forall_forall. intros ky Hin.
  exists kx.1, ky.1. split_and!; [done| |].
  - by eapply Forall_forall in Hall.
  - by eapply Forall_forall in Hkx.
Qed.

(** When [sorted] returns, it returns the items it was given, in
    non-decreasing order of their keys. *)
Lemma sorted_Ok (xs ys : list A) :
  sorted key xs = Ok ys → ys ≡ₚ xs ∧ StronglySorted (key_le key) ys.
Proof.
  unfold sorted. destruct (mapM _ xs) as [l|e] eqn:Hl; cbn; [|done].
  intros [= <-]. apply keys_spec in Hl as [<- Hall]. split.
  - by rewrite stable_sort_perm.
  - apply sorted_keys; [|apply stable_sort_sorted].
    by rewrite stable_sort_perm.
Qed.

(** [sorted] returns as soon as every key is defined. *)
Lemma sorted_total (xs : list A) :
  Forall (fun x => exists k, key x = Ok k) xs → exists ys, sorted key xs = Ok ys.
Proof.
  intros [l Hl]%keys_total. unfold sorted. rewrite Hl; cbn. by eexists.
Qed.

End SortedFacts.

(** ** [DateMixin.save] *)

Section DateMixinFacts.
Import DateMixin.
Context {F : Type}.
Implicit Types (self : DateMixin.t F) (table : gmap Z (DateMixin.t F)).
Implicit Types (edits : list (datetime * F)).

(** What a save does to the four parts of the instance. *)
Lemma save_id now fresh self table :
  id (save now fresh self table).1 = Some (default fresh (id self)).
Proof. unfold save. by destruct (truthy (id self)). Qed.

Lemma save_date_added now fresh self table :
  date_added (save now fresh self table).1 = date_added self.
Proof. unfold save. by destruct (truthy (id self)). Qed.

Lemma save_date_modified now fresh self table :
  date_modified (save now fresh self table).1 =
  if truthy (id self) then Some now else date_modified self.
Proof. unfold save. by destruct (truthy (id self)). Qed.

Lemma save_fields now fresh self table :
  fields (save now fresh self table).1 = fields self.
Proof. unfold save. by destruct (truthy (id self)). Qed.

(** The instance that [save] returns is the row that it has stored. *)
Lemma save_stored now fresh self table (pk : Z) :
  id (save now fresh self table).1 = Some pk →
  (save now fresh self table).2 !! pk = Some (save now fresh self table).1.
Proof.
  unfold save, Model_save. cbn. intros [= <-]. apply lookup_insert_eq.
Qed.

(** An instance that has a key keeps it in every save. *)
Lemma save_keeps_id now fresh self table (pk : Z) :
  id self = Some pk → id (save now fresh self table).1 = Some pk.
Proof. intros Hid. by rewrite save_id, Hid. Qed.

Lemma resave_snoc fresh edits now (f : F) self table :
  resave fresh (edits ++ [(now, f)]) self table =
  save now fresh
    (Build (id (resave fresh edits self table).1)
       (date_added (resave fresh edits self table).1)
       (date_modified (resave fresh edits self table).1) f)
    (resave fresh edits self table).2.
Proof.
  revert self table.
  induction edits as [|[t g] edits IH]; intros self table; cbn [resave app fst snd].
  - by destruct (save now fresh _ table).
  - destruct (save t fresh _ table) as [self' table']. apply IH.
Qed.

(** After its last save, the instance is the row stored under its key. *)
Lemma resave_stored fresh edits now (f : F) self table :
  ∃ pk, id (resave fresh (edits ++ [(now, f)]) self table).1 = Some pk ∧
        (resave fresh (edits ++ [(now, f)]) self table).2 !! pk =
          Some (resave fresh (edits ++ [(now, f)]) self table).1.
Proof.
  rewrite resave_snoc. eexists. split; [apply save_id|].
  apply save_stored, save_id.
Qed.

Lemma resave_id fresh edits self table (pk : Z) :
  id self = Some pk → id (resave fresh edits self table).1 = Some pk.
Proof.
  revert self table.
  induction edits as [|[t g] edits IH]; intros self table Hid; cbn [resave fst].
  - done.
  - destruct (save t fresh _ table) as [self' table'] eqn:Hs. apply IH.
    change self' with (self', table').1. rewrite <-Hs. by apply save_keeps_id.
Qed.

Lemma resave_date_added fresh edits self table :
  date_added (resave fresh edits self table).1 = date_added self.
Proof.
  revert self table.
  induction edits as [|[t g] edits IH]; intros self table; cbn [resave fst].
  - done.
  - destruct (save t fresh _ table) as [self' table'] eqn:Hs. rewrite IH.
    change self' with (self', table').1. rewrite <-Hs. by rewrite save_date_added.
Qed.

(** With the key [0] no save touches [date_modified]. *)
Lemma resave_key_zero fresh edits self table :
  id self = Some 0 →
  date_modified (resave fresh edits self table).1 = date_modified self.
Proof.
  revert self table.
  induction edits as [|[t g] edits IH]; intros self table Hid; cbn [resave fst].
  - done.
  - destruct (save t fresh _ table) as [self' table'] eqn:Hs.
    pose proof (f_equal (fun r => id r.1) Hs) as Hid'.
    pose proof (f_equal (fun r => date_modified r.1) Hs) as Hmod'.
    cbn beta in Hid', Hmod'. rewrite save_id in Hid'.
    rewrite save_date_modified in Hmod'. cbn [id date_modified fst] in Hid', Hmod'.
    rewrite Hid in Hid', Hmod'. cbn in Hid', Hmod'.
    by rewrite IH.
Qed.

End DateMixinFacts.

(** ** Reading the database *)

Section DBFacts.
Import Py Party.

Lemma result_mapM_Ok {A B} (f : A → result B) (l : list A) (l' : list B) :
  mapM f l = Ok l' ↔ Forall2 (fun x y => f x = Ok y) l l'.
Proof.
  revert l'. induction l as [|x l IH]; intros l'; cbn.
  - split; [intros [= <-]; constructor|by inversion 1].
  - destruct (f x) as [y|e] eqn:Hy; cbn.
    + destruct (mapM f l) as [ys|e] eqn:Hys; cbn.
      * split.
        -- intros [= <-]. constructor; [done|]. by apply IH.
        -- inversion 1 as [|? y' ? ys' Hy' Hys']; subst.
           apply IH in Hys'. unfold mret, result_ret. congruence.
      * split; [done|]. inversion 1 as [|? y' ? ys' Hy' Hys']; subst.
        by apply IH in Hys'.
    + split; [done|]. inversion 1; congruence.
Qed.

(** A comprehension raises the exception of the first item that raises. *)
Lemma result_mapM_Raise {A B} (f : A → result B) (l : list A) (e : exn) :
  (∀ x e', x ∈ l → f x = Raise e' → e' = e) →
  (∃ x, x ∈ l ∧ f x = Raise e) →
  mapM f l = Raise e.
Proof.
  induction l as [|x l IH]; intros Hall (y & Hin & Hy).
  - by apply elem_of_nil in Hin.
  - cbn. destruct (f x) as [z|e'] eqn:Hx; cbn.
    + rewrite IH; [done| |].
      * intros x' e' Hx'. apply Hall. by right.
      * apply elem_of_cons in Hin as [->|Hin]; [congruence|]. by exists y.
    + f_equal. eapply Hall; [by left|done].
Qed.

Lemma run_ret {A} (a : A) st : run (mret a) st = Ok a.
Proof. done. Qed.

Lemma run_bind {A B} (m : DB A) (f : A → DB B) st :
  run (m ≫= f) st = run m st ≫= (fun a => run (f a) st).
Proof.
  unfold run, mbind, DB_bind, result_bind.
  destruct (m st) as [[a|e] qs]; cbn; [|done]. by destruct (f a st).
Qed.

Lemma run_mapM {A B} (f : A → DB B) (l : list A) st :
  run (mapM f l) st = mapM (fun x => run (f x) st) l.
Proof.
  induction l as [|x l IH]; cbn [mapM]; [done|].
  rewrite run_bind. destruct (run (f x) st) as [y|e]; cbn; [|done].
  rewrite run_bind, IH. by destruct (mapM _ l).
Qed.

(** The result of [child], by cases on the two tables. *)
Lemma run_child (p : Party.t) st :
  run (child p) st =
  match person st !! id p with
  | Some x => Ok (IsPerson x)
  | None =>
      match organization st !! id p with
      | Some o => Ok (IsOrganization o)
      | None => Raise (DoesNotExist OrganizationModel)
      end
  end.
Proof.
  unfold run, child, try_except, mbind, DB_bind, get_person, get_organization.
  destruct (person st !! id p); cbn; [done|].
  by destruct (organization st !! id p).
Qed.

(** The queries of [child], by cases on the person table. *)
Lemma queries_child (p : Party.t) st :
  queries (child p) st =
  match person st !! id p with
  | Some _ => [SelectPerson (id p)]
  | None => [SelectPerson (id p); SelectOrganization (id p)]
  end.
Proof.
  unfold queries, child, try_except, mbind, DB_bind, get_person, get_organization.
  destruct (person st !! id p); cbn; [done|].
  by destruct (organization st !! id p).
Qed.

Lemma run_children st :
  run PartyManager.children st =
  mapM (fun p => run (child p) st) (party st) ≫= sorted sort_name.
Proof.
  unfold PartyManager.children. rewrite run_bind. cbn.
  rewrite run_bind, run_mapM. by destruct (mapM _ (party st)).
Qed.

End DBFacts.

(** ** [Party.child] *)

Section ChildFacts.
Import Py Party.

(** C1.  Resolving a party row yields one of three outcomes, fixed by the
    two child tables: the person with the key of the party, found by the
    first lookup; if there is none, the organization with that key, found
    by the second lookup; if there is none either, an exception, the
    [Organization.DoesNotExist] of the second lookup, which reaches the
    caller.  No outcome is a value made up for a party without a child. *)
Theorem child_person_then_organization (p : Party.t) (st : store) :
  (∃ x, person st !! id p = Some x ∧
        run (child p) st = Ok (IsPerson x) ∧
        queries (child p) st = [SelectPerson (id p)]) ∨
  (∃ o, person st !! id p = None ∧ organization st !! id p = Some o ∧
        run (child p) st = Ok (IsOrganization o) ∧
        queries (child p) st = [SelectPerson (id p); SelectOrganization (id p)]) ∨
  (person st !! id p = None ∧ organization st !! id p = None ∧
   run (child p) st = Raise (DoesNotExist OrganizationModel) ∧
   queries (child p) st = [SelectPerson (id p); SelectOrganization (id p)]).
Proof.
  rewrite run_child, queries_child.
  destruct (person st !! id p) as [x|]; [left; by exists x|right].
  destruct (organization st !! id p) as [o|]; [left; by exists o|by right].
Qed.

(** C4, as the code has it.  A party row that has a person and an
    organization resolves to the person; no exception is raised. *)
Theorem child_of_doubled_party (p : Party.t) (st : store)
    (x : Person.t) (o : Organization.t) :
  person st !! id p = Some x →
  organization st !! id p = Some o →
  run (child p) st = Ok (IsPerson x) ∧ ∀ e, run (child p) st ≠ Raise e.
Proof. intros Hx Ho. rewrite run_child, Hx. by split. Qed.

(** C10.  For a party row that has a person and an organization, the
    outcome is the person and the only query is the lookup of the person;
    in any store, the organization is looked up exactly when the lookup of
    the person has raised [Person.DoesNotExist], and after it. *)
Theorem child_prefers_person (p : Party.t) (st : store)
    (x : Person.t) (o : Organization.t) :
  person st !! id p = Some x →
  organization st !! id p = Some o →
  run (child p) st = Ok (IsPerson x) ∧
  queries (child p) st = [SelectPerson (id p)] ∧
  ∀ st', (SelectOrganization (id p) ∈ queries (child p) st' ↔
            run (get_person p) st' = Raise (DoesNotExist PersonModel)) ∧
         ∃ qs, queries (child p) st' = SelectPerson (id p) :: qs.
Proof.
  intros Hx Ho. rewrite run_child, queries_child, Hx. split_and!; [done..|].
  intros st'. rewrite queries_child. unfold run, get_person; cbn.
  destruct (person st' !! id p); split; try by eexists.
  - split; [|done]. intros Hin. apply list_elem_of_singleton in Hin. done.
  - split; [done|]. intros _. apply elem_of_cons. right. by apply list_elem_of_singleton.
Qed.

End ChildFacts.

(** ** [PartyManager.children] *)

Section ChildrenFacts.
Import Py Party.

Lemma resolve_all (ps : list Party.t) (st : store) :
  Forall (fun p => is_Some (person st !! id p) ∨ is_Some (organization st !! id p)) ps →
  ∃ cs, Forall2 (fun p c => run (child p) st = Ok c) ps cs.
Proof.
  induction 1 as [|p ps Hp _ [cs Hcs]]; [by exists []|].
  assert (∃ c, run (child p) st = Ok c) as [c Hc].
  { rewrite run_child. destruct (person st !! id p) as [x|]; [by eexists|].
    destruct Hp as [[? [=]]|[o ->]]. by eexists. }
  exists (c :: cs). by constructor.
Qed.

Lemma resolved_sort_name (ps : list Party.t) (cs : list concrete) (st : store) :
  Forall2 (fun p c => run (child p) st = Ok c) ps cs →
  (∀ p x, p ∈ ps → person st !! id p = Some x →
     is_Some (Person.middle_name (DateMixin.fields x)) ∧
     is_Some (Person.last_name (DateMixin.fields x))) →
  Forall (fun c => ∃ k, sort_name c = Ok k) cs.
Proof.
  induction 1 as [|p c ps cs Hc _ IH]; intros Hnames; constructor.
  - rewrite run_child in Hc. destruct c as [x|o]; [|by eexists].
    destruct (person st !! id p) as [x'|] eqn:Hx.
    + injection Hc as ->.
      destruct (Hnames p x (list_elem_of_here _ _) Hx) as [[m Hm] [l Hl]].
      cbn [sort_name]. unfold Person.sort_name. rewrite Hm, Hl.
      eexists. apply (join_Some " " [_; m; l]).
    + by destruct (organization st !! id p).
  - apply IH. intros p' x Hin. apply Hnames. by right.
Qed.

(** C2, as the code has it.  In a store in which every party row has a
    person or an organization, and no person among them has a null middle
    or last name, the listing returns: its outcome holds the child of
    every party row, each once, in non-decreasing order of [sort_name] under
    the comparison of strings by character codes. *)
Theorem children_sorted (st : store) :
  Forall (fun p => is_Some (person st !! id p) ∨ is_Some (organization st !! id p))
    (party st) →
  (∀ p x, p ∈ party st → person st !! id p = Some x →
     is_Some (Person.middle_name (DateMixin.fields x)) ∧
     is_Some (Person.last_name (DateMixin.fields x))) →
  ∃ cs l,
    Forall2 (fun p c => run (child p) st = Ok c) (party st) cs ∧
    run PartyManager.children st = Ok l ∧
    l ≡ₚ cs ∧
    StronglySorted (key_le sort_name) l.
Proof.
  intros Hres Hnames.
  destruct (resolve_all _ _ Hres) as [cs Hcs].
  pose proof (resolved_sort_name _ _ _ Hcs Hnames) as Hkeys.
  destruct (sorted_total sort_name cs Hkeys) as [l Hl].
  exists cs, l. split; [done|].
  rewrite run_children.
  apply result_mapM_Ok in Hcs. rewrite Hcs; cbn.
  split; [done|]. by apply sorted_Ok.
Qed.

(** C5.  When some party row has neither a person nor an organization, the
    listing raises [Organization.DoesNotExist]: it returns no list, hence
    no list that holds that party. *)
Theorem children_of_orphan_raise (st : store) (p : Party.t) :
  p ∈ party st →
  person st !! id p = None →
  organization st !! id p = None →
  run PartyManager.children st = Raise (DoesNotExist OrganizationModel) ∧
  ∀ l, run PartyManager.children st ≠ Ok l.
Proof.
  intros Hin Hx Ho.
  assert (run PartyManager.children st = Raise (DoesNotExist OrganizationModel)) as ->;
    [|by split].
  rewrite run_children, (result_mapM_Raise _ _ (DoesNotExist OrganizationModel)); [done| |].
  - intros q e _. rewrite run_child.
    destruct (person st !! id q); [done|].
    destruct (organization st !! id q); congruence.
  - exists p. split; [done|]. by rewrite run_child, Hx, Ho.
Qed.

End ChildrenFacts.

(** ** The dates across the saves of an instance *)

Section SaveFacts.
Import DateMixin.
Context {F : Type}.
Implicit Types (self : DateMixin.t F) (table : gmap Z (DateMixin.t F)).
Implicit Types (edits : list (datetime * F)).

(** C3, as the code has it.  An instance built at [t0] without a key and
    with the default dates is inserted by its first save under the key
    [fresh] that the database gives it, with [date_added] the time [t0] at
    which it was built and [date_modified] null.  Every later save of it,
    whatever the edits and the saves in between, stores it under that key
    with [date_added] still [t0]; it sets [date_modified] to the time of
    that save when the key is not [0], and leaves it null when the key is
    [0]. *)
Theorem save_new_then_resave (fresh : Z) (t0 t1 : datetime) (f : F) table :
  ∃ self1 table1,
    save t1 fresh (new t0 None f) table = (self1, table1) ∧
    id self1 = Some fresh ∧ table1 !! fresh = Some self1 ∧
    date_added self1 = t0 ∧ date_modified self1 = None ∧
    ∀ edits now f', ∃ self2 table2,
      resave fresh (edits ++ [(now, f')]) self1 table1 = (self2, table2) ∧
      table2 !! fresh = Some self2 ∧
      date_added self2 = t0 ∧
      (fresh ≠ 0 → date_modified self2 = Some now) ∧
      (fresh = 0 → date_modified self2 = None).
Proof.
  exists (save t1 fresh (new t0 None f) table).1,
    (save t1 fresh (new t0 None f) table).2.
  assert (id (save t1 fresh (new t0 None f) table).1 = Some fresh) as Hid
    by (rewrite save_id; done).
  split_and!; [by destruct (save _ _ _ _)|done|by apply save_stored
              |by rewrite save_date_added|by rewrite save_date_modified|].
  intros edits now f'. eexists _, _. split; [apply surjective_pairing|].
  pose proof (resave_id fresh edits _ (save t1 fresh (new t0 None f) table).2 _ Hid)
    as Hid'.
  rewrite resave_snoc. split_and!.
  - apply save_stored. rewrite save_id; cbn [id]. by rewrite Hid'.
  - rewrite save_date_added; cbn [date_added].
    by rewrite resave_date_added, save_date_added.
  - intros Hne. rewrite save_date_modified; cbn [id]. rewrite Hid'.
    unfold truthy. by apply Z.eqb_neq in Hne as ->.
  - intros ->. rewrite save_date_modified; cbn [id date_modified]. rewrite Hid'.
    cbn [truthy Z.eqb negb]. rewrite resave_key_zero by done.
    by rewrite save_date_modified.
Qed.

(** C6, as the code has it.  Whether a save sets [date_modified] depends on
    the truth value of the key of the instance and on nothing in the table:
    in particular the first save of an instance built with a key that is
    not [0], which no row of the table has, sets [date_modified] to the time
    of the save, and inserts the row. *)
Theorem save_update_by_truthy_id (now : datetime) (fresh : Z) table :
  (∀ self, date_modified (save now fresh self table).1 =
           if truthy (id self) then Some now else date_modified self) ∧
  (∀ (t0 : datetime) (pk : Z) (f : F),
     pk ≠ 0 → table !! pk = None →
     date_modified (save now fresh (new t0 (Some pk) f) table).1 = Some now ∧
     (save now fresh (new t0 (Some pk) f) table).2 !! pk =
       Some (Build (Some pk) t0 (Some now) f)).
Proof.
  split; [intros self; apply save_date_modified|].
  intros t0 pk f Hpk _. unfold save, Model_save, new, truthy; cbn.
  apply Z.eqb_neq in Hpk. rewrite Hpk; cbn. split; [done|].
  apply lookup_insert_eq.
Qed.

(** C7.  No save changes [date_added]: neither in the instance, nor in the
    row that it stores, after one save or after any number of edits and
    saves. *)
Theorem save_keeps_date_added (fresh : Z) self table :
  (∀ now, date_added (save now fresh self table).1 = date_added self) ∧
  ∀ edits now (f : F), ∃ pk self' table',
    resave fresh (edits ++ [(now, f)]) self table = (self', table') ∧
    date_added self' = date_added self ∧
    id self' = Some pk ∧
    ∃ row, table' !! pk = Some row ∧ date_added row = date_added self.
Proof.
  split; [intros now; apply save_date_added|].
  intros edits now f.
  destruct (resave_stored fresh edits now f self table) as (pk & Hid & Hrow).
  exists pk, (resave fresh (edits ++ [(now, f)]) self table).1,
    (resave fresh (edits ++ [(now, f)]) self table).2.
  split_and!; [apply surjective_pairing|apply resave_date_added|done|].
  eexists. split; [exact Hrow|apply resave_date_added].
Qed.

End SaveFacts.

(** ** The derived strings *)

Section NameFacts.
Import Py.

(** The two derived strings of a person are the same expression. *)
Lemma person_search_index_sort_name (self : Person.t) :
  Person.search_index self = Person.sort_name self.
Proof. done. Qed.

(** For a person whose three names are strings, [sort_name] is the three
    names with one space after the first and one after the second, also
    when a name is empty; a null name raises [TypeError]. *)
Lemma person_sort_name (self : Person.t) :
  Person.sort_name self =
  match Person.middle_name (DateMixin.fields self),
        Person.last_name (DateMixin.fields self) with
  | Some m, Some l =>
      Ok (Person.first_name (DateMixin.fields self) +:+ " " +:+ m +:+ " " +:+ l)
  | _, _ => Raise TypeError
  end.
Proof.
  unfold Person.sort_name.
  destruct (Person.middle_name _) as [m|], (Person.last_name _) as [l|]; try done.
  apply (join_Some " " [_; m; l]).
Qed.

Lemma jane_blank_sort_name : Person.sort_name Sample.jane_blank = Ok "Jane  ".
Proof. done. Qed.

(** C8, at the input on which the code fails.  For the person built from
    the first name "Jane" alone, whose middle and last names are null,
    [sort_name] and [search_index] raise [TypeError]. *)
Theorem jane_names_raise :
  Person.sort_name Sample.jane = Raise TypeError ∧
  Person.search_index Sample.jane = Raise TypeError.
Proof. split; [|rewrite person_search_index_sort_name]; apply person_sort_name. Qed.

(** The [search_index] of a street address whose four columns hold strings
    is the four strings in the order address, city, state, zip, with one
    space between two neighbours; for "1 Main St", "Springfield", "IL" and
    "62701" it is "1 Main St Springfield IL 62701".  The four columns are
    declared [null=True], and a null column makes the join raise
    [TypeError]. *)
Lemma street_address_join (self : StreetAddress.t) :
  StreetAddress.search_index self =
    match StreetAddress.address (DateMixin.fields self),
          StreetAddress.city (DateMixin.fields self),
          StreetAddress.state (DateMixin.fields self),
          StreetAddress.zip (DateMixin.fields self) with
    | Some a, Some c, Some s, Some z =>
        Ok (String.concat " " [a; c; s; z])
    | _, _, _, _ => Raise TypeError
    end ∧
  (∀ a c s z : string,
     String.concat " " [a; c; s; z] = a +:+ " " +:+ c +:+ " " +:+ s +:+ " " +:+ z) ∧
  StreetAddress.search_index Sample.main_st = Ok "1 Main St Springfield IL 62701".
Proof.
  split_and!; [|done..].
  unfold StreetAddress.search_index.
  destruct (StreetAddress.address _) as [a|]; [|done].
  destruct (StreetAddress.city _) as [c|]; [|done].
  destruct (StreetAddress.state _) as [s|]; [|done].
  destruct (StreetAddress.zip _) as [z|]; [|done].
  apply (join_Some " " [a; c; s; z]).
Qed.

(** C9, at the input on which the code fails.  For the street address of
    which only the first line "1 Main St" was given, whose city, state and
    zip are null, [search_index] raises [TypeError]: it is no string, and so
    not the join of the four fields. *)
Theorem no_city_search_index_raises :
  StreetAddress.city (DateMixin.fields Sample.no_city) = None ∧
  StreetAddress.search_index Sample.no_city = Raise TypeError ∧
  ∀ s : string, StreetAddress.search_index Sample.no_city ≠ Ok s.
Proof. split_and!; [done..|]. intros s. by vm_compute. Qed.

End NameFacts.

(** ** The properties at the sample rows *)

Section Samples.
Import Py Party.

(** The listing of the two persons and the organization of the sample
    store: the organization "Acme" comes first, then "Alice", then "Bob". *)
Lemma children_contacts :
  run PartyManager.children Sample.contacts =
  Ok [IsOrganization (Sample.organization 3 "Acme");
      IsPerson (Sample.person 2 "Alice" (Some "") (Some "Zed"));
      IsPerson (Sample.person 1 "Bob" (Some "") (Some "Young"))].
Proof. vm_compute. reflexivity. Qed.

(** The order of strings tells the cases apart: every upper-case letter
    comes before every lower-case one. *)
Lemma str_lt_case : str_lt "Zed" "alice" = true ∧ str_lt "alice" "Zed" = false.
Proof. done. Qed.

(** C2, where the claim fails.  The only party row of the store has no
    child; the listing raises, and returns no list. *)
Lemma children_of_lone_party :
  party Sample.lone = [Party.Build 9] ∧
  run PartyManager.children Sample.lone = Raise (DoesNotExist OrganizationModel) ∧
  ∀ l, run PartyManager.children Sample.lone ≠ Ok l.
Proof. split_and!; [done|by vm_compute|]. intros l. by vm_compute. Qed.

(** C3, where the claim fails.  No row of the table has the key [7]; the
    first save of the email address built with that key sets
    [date_modified].  (The instance has a key, so the key [2] that the
    database would give is not used.) *)
Lemma first_save_of_keyed_email :
  Sample.emails !! 7 = None ∧
  DateMixin.date_modified Sample.keyed_email = None ∧
  DateMixin.date_modified (DateMixin.save 105 2 Sample.keyed_email Sample.emails).1
    = Some 105 ∧
  DateMixin.date_modified (DateMixin.save 105 2 Sample.keyed_email Sample.emails).1
    ≠ None.
Proof. split_and!; by vm_compute. Qed.

(** C4, where the claim fails.  The party row has a person and an
    organization; resolving it returns the person, and raises nothing. *)
Lemma doubled_party_resolves :
  person Sample.doubled !! 4 = Some (Sample.person 4 "Ada" (Some "") (Some "Byron")) ∧
  organization Sample.doubled !! 4 = Some (Sample.organization 4 "Analytical Engines") ∧
  run (child (Party.Build 4)) Sample.doubled
    = Ok (IsPerson (Sample.person 4 "Ada" (Some "") (Some "Byron"))) ∧
  ∀ e, run (child (Party.Build 4)) Sample.doubled ≠ Raise e.
Proof. split_and!; [by vm_compute..|]. intros e. by vm_compute. Qed.

(** C6, where the claim fails.  The table is empty; the first save of the
    organization built with the key [5] is taken for an update, and sets
    [date_modified].  (The instance has a key, so the key [1] that the
    database would give is not used.) *)
Lemma first_save_of_keyed_organization :
  (∅ : gmap Z Organization.t) !! 5 = None ∧
  DateMixin.date_modified (DateMixin.save 105 1 Sample.keyed_organization ∅).1
    = Some 105 ∧
  DateMixin.date_modified (DateMixin.save 105 1 Sample.keyed_organization ∅).1
    ≠ None.
Proof. split_and!; by vm_compute. Qed.

End Samples.

(** ** The theorems with hypotheses, at the sample rows *)

Section Witnesses.
Import Py Party.

(** [children_sorted] at the store of two persons and one organization. *)
Lemma children_sorted_contacts :
  Forall (fun p => is_Some (person Sample.contacts !! id p) ∨
                   is_Some (organization Sample.contacts !! id p))
    (party Sample.contacts) ∧
  (∀ p x, p ∈ party Sample.contacts → person Sample.contacts !! id p = Some x →
     is_Some (Person.middle_name (DateMixin.fields x)) ∧
     is_Some (Person.last_name (DateMixin.fields x))) ∧
  ∃ cs l,
    Forall2 (fun p c => run (child p) Sample.contacts = Ok c) (party Sample.contacts) cs ∧
    run PartyManager.children Sample.contacts = Ok l ∧
    l ≡ₚ cs ∧
    StronglySorted (key_le sort_name) l.
Proof.
  assert (Forall (fun p => is_Some (person Sample.contacts !! id p) ∨
                           is_Some (organization Sample.contacts !! id p))
            (party Sample.contacts)) as Hres.
  { repeat apply Forall_cons_2; [left|left|right|apply Forall_nil_2];
      vm_compute; eexists; reflexivity. }
  assert (∀ p x, p ∈ party Sample.contacts → person Sample.contacts !! id p = Some x →
            is_Some (Person.middle_name (DateMixin.fields x)) ∧
            is_Some (Person.last_name (DateMixin.fields x))) as Hnames.
  { intros p x Hin Hx. cbn in Hin.
    rewrite !elem_of_cons, elem_of_nil in Hin.
    destruct Hin as [->|[->|[->|[]]]]; vm_compute in Hx; [| |discriminate];
      injection Hx as <-; split; vm_compute; eexists; reflexivity. }
  exact (conj Hres (conj Hnames (children_sorted Sample.contacts Hres Hnames))).
Defined.

(** [child_of_doubled_party] at the party that has both children. *)
Lemma child_of_doubled_party_sample :
  person Sample.doubled !! 4 = Some (Sample.person 4 "Ada" (Some "") (Some "Byron")) ∧
  organization Sample.doubled !! 4 = Some (Sample.organization 4 "Analytical Engines") ∧
  run (child (Party.Build 4)) Sample.doubled
    = Ok (IsPerson (Sample.person 4 "Ada" (Some "") (Some "Byron"))) ∧
  ∀ e, run (child (Party.Build 4)) Sample.doubled ≠ Raise e.
Proof.
  assert (person Sample.doubled !! id (Party.Build 4)
          = Some (Sample.person 4 "Ada" (Some "") (Some "Byron"))) as Hx
    by (vm_compute; reflexivity).
  assert (organization Sample.doubled !! id (Party.Build 4)
          = Some (Sample.organization 4 "Analytical Engines")) as Ho
    by (vm_compute; reflexivity).
  exact (conj Hx (conj Ho (child_of_doubled_party _ _ _ _ Hx Ho))).
Defined.

(** [child_prefers_person] at the party that has both children. *)
Lemma child_prefers_person_sample :
  person Sample.doubled !! 4 = Some (Sample.person 4 "Ada" (Some "") (Some "Byron")) ∧
  organization Sample.doubled !! 4 = Some (Sample.organization 4 "Analytical Engines") ∧
  run (child (Party.Build 4)) Sample.doubled
    = Ok (IsPerson (Sample.person 4 "Ada" (Some "") (Some "Byron"))) ∧
  queries (child (Party.Build 4)) Sample.doubled = [SelectPerson 4].
Proof.
  assert (person Sample.doubled !! id (Party.Build 4)
          = Some (Sample.person 4 "Ada" (Some "") (Some "Byron"))) as Hx
    by (vm_compute; reflexivity).
  assert (organization Sample.doubled !! id (Party.Build 4)
          = Some (Sample.organization 4 "Analytical Engines")) as Ho
    by (vm_compute; reflexivity).
  pose proof (child_prefers_person _ _ _ _ Hx Ho) as (Hrun & Hqs & _).
  exact (conj Hx (conj Ho (conj Hrun Hqs))).
Defined.

(** [children_of_orphan_raise] at the store whose second party row has no
    child. *)
Lemma children_of_orphan_raise_sample :
  Party.Build 9 ∈ party Sample.orphaned ∧
  person Sample.orphaned !! 9 = None ∧
  organization Sample.orphaned !! 9 = None ∧
  run PartyManager.children Sample.orphaned = Raise (DoesNotExist OrganizationModel) ∧
  ∀ l, run PartyManager.children Sample.orphaned ≠ Ok l.
Proof.
  assert (Party.Build 9 ∈ party Sample.orphaned) as Hin
    by (apply elem_of_cons; right; apply elem_of_cons; left; reflexivity).
  assert (person Sample.orphaned !! id (Party.Build 9) = None) as Hx
    by (vm_compute; reflexivity).
  assert (organization Sample.orphaned !! id (Party.Build 9) = None) as Ho
    by (vm_compute; reflexivity).
  exact (conj Hin (conj Hx (conj Ho
           (children_of_orphan_raise Sample.orphaned (Party.Build 9) Hin Hx Ho)))).
Defined.

(** [save_update_by_truthy_id] at the organization built with the key [5]
    and an empty table. *)
Lemma save_update_by_truthy_id_sample :
  5 ≠ 0 ∧
  (∅ : gmap Z Organization.t) !! 5 = None ∧
  DateMixin.date_modified
    (DateMixin.save 105 1 (DateMixin.new 100 (Some 5) (Organization.Build "Acme")) ∅).1
    = Some 105 ∧
  (DateMixin.save 105 1 (DateMixin.new 100 (Some 5) (Organization.Build "Acme")) ∅).2 !! 5
    = Some (DateMixin.Build (Some 5) 100 (Some 105) (Organization.Build "Acme")).
Proof.
  assert (5 ≠ 0) as Hpk by lia.
  assert ((∅ : gmap Z Organization.t) !! 5 = None) as Hnew by (vm_compute; reflexivity).
  exact (conj Hpk (conj Hnew
           (proj2 (save_update_by_truthy_id 105 1 ∅) 100 5 (Organization.Build "Acme")
              Hpk Hnew))).
Defined.

(** [save_new_then_resave] at an email address built without a key, to
    which the database gives the key [2]: its first save leaves
    [date_modified] null, and the save at [120] after an edit sets it. *)
Lemma save_new_then_resave_email :
  2 ≠ 0 ∧
  DateMixin.date_modified
    (DateMixin.save 110 2 (DateMixin.new 100 None Sample2.email_edit) Sample.emails).1
    = None ∧
  DateMixin.date_modified
    (DateMixin.resave 2 ([] ++ [(120, Sample2.email_edit)])
       (DateMixin.save 110 2 (DateMixin.new 100 None Sample2.email_edit) Sample.emails).1
       (DateMixin.save 110 2 (DateMixin.new 100 None Sample2.email_edit) Sample.emails).2).1
    = Some 120.
Proof.
  assert (2 ≠ 0) as Hkey by lia.
  destruct (save_new_then_resave 2 100 110 Sample2.email_edit Sample.emails)
    as (self1 & table1 & Hfirst & _ & _ & _ & Hnull & Hlater).
  destruct (Hlater [] 120 Sample2.email_edit) as (self2 & table2 & Hres & _ & _ & Hmod & _).
  pose proof (f_equal fst Hfirst) as H1. pose proof (f_equal snd Hfirst) as H2.
  cbn [fst snd] in H1, H2. subst self1 table1.
  pose proof (f_equal fst Hres) as H3. cbn [fst] in H3. subst self2.
  exact (conj Hkey (conj Hnull (Hmod Hkey))).
Defined.

End Witnesses.

(** ** More on the listing: ties, storage order, queries, null names *)

Section ListingFacts.
Import Py PyEq Party.

Lemma keys_filter {A} (key : A → result string) (k : string) (l : list (string * A)) :
  Forall (fun kx => key kx.2 = Ok kx.1) l →
  filter (fun c => key c = Ok k) l.*2 = (filter (fun kx => kx.1 = k) l).*2.
Proof.
  induction 1 as [|kx l Hkx _ IH]; [done|].
  rewrite fmap_cons, !filter_cons, IH, Hkx.
  destruct (decide (Ok kx.1 = Ok k)) as [[= Hk]|Hne];
    destruct (decide (kx.1 = k)) as [Hk'|Hne']; try done; congruence.
Qed.

(** [sorted] keeps the items of one key in the order it was given them. *)
Lemma sorted_stable {A} (key : A → result string) (xs ys : list A) (k : string) :
  sorted key xs = Ok ys →
  filter (fun c => key c = Ok k) ys = filter (fun c => key c = Ok k) xs.
Proof.
  unfold sorted. destruct (mapM _ xs) as [l|e] eqn:Hl; cbn; [|done].
  intros [= <-]. apply keys_spec in Hl as [<- Hall].
  rewrite !keys_filter, stable_sort_stable; [done..|].
  by rewrite stable_sort_perm.
Qed.

(** X1.  In the listing, the children that have one and the same
    [sort_name] stand in the order in which [all()] has yielded their party
    rows. *)
Theorem children_ties_keep_storage_order (st : store) (cs l : list concrete)
    (k : string) :
  Forall2 (fun p c => run (child p) st = Ok c) (party st) cs →
  run PartyManager.children st = Ok l →
  filter (fun c => sort_name c = Ok k) l = filter (fun c => sort_name c = Ok k) cs.
Proof.
  intros Hcs%result_mapM_Ok. rewrite run_children, Hcs; cbn.
  apply sorted_stable.
Qed.

(** A comprehension over a rearranged list gives the rearranged
    outcome, if it gives one. *)
Lemma result_mapM_Permutation {A B} (f : A → result B) (l l' : list A) (k : list B) :
  l ≡ₚ l' → mapM f l = Ok k → ∃ k', mapM f l' = Ok k' ∧ k ≡ₚ k'.
Proof.
  intros Hperm. revert k.
  induction Hperm as [|x l l' _ IH|x y l|l l' l'' _ IH1 _ IH2]; intros k; cbn.
  - intros [= <-]. by exists [].
  - destruct (f x) as [z|e]; cbn; [|done].
    destruct (mapM f l) as [zs|e]; cbn; [|done]. intros [= <-].
    destruct (IH zs eq_refl) as (zs' & -> & Hzs). cbn.
    exists (z :: zs'). split; [done|]. by constructor.
  - destruct (f y) as [zy|e]; cbn; [|done].
    destruct (f x) as [zx|e]; cbn; [|done].
    destruct (mapM f l) as [zs|e]; cbn; [|done]. intros [= <-].
    exists (zx :: zy :: zs). split; [done|]. apply Permutation_swap.
  - intros Hk. destruct (IH1 k Hk) as (k' & Hk' & Hperm').
    destruct (IH2 k' Hk') as (k'' & Hk'' & Hperm''). exists k''.
    split; [done|]. by etrans.
Qed.

Lemma str_le_antisym (a b : string) : str_le a b → str_le b a → a = b.
Proof.
  rewrite !str_le_compare, (String.compare_antisym a b).
  destruct (String.compare b a) eqn:Hc; cbn; [|done..].
  intros _ _. symmetry. by apply String.compare_eq_iff.
Qed.

Lemma NoDup_keys_item {A} (l : list (string * A)) (k : string) (a1 a2 : A) :
  NoDup l.*1 → (k, a1) ∈ l → (k, a2) ∈ l → a1 = a2.
Proof.
  induction l as [|[k' a] l IH]; cbn; intros Hnd H1 H2.
  - by apply elem_of_nil in H1.
  - apply NoDup_cons in Hnd as [Hk' Hnd].
    apply elem_of_cons in H1 as [H1|H1]; apply elem_of_cons in H2 as [H2|H2].
    + congruence.
    + injection H1 as -> ->. destruct Hk'. apply list_elem_of_fmap. by exists (k', a2).
    + injection H2 as -> ->. destruct Hk'. apply list_elem_of_fmap. by exists (k', a1).
    + by apply IH.
Qed.

Lemma result_mapM_ext {A B} (f g : A → result B) (l : list A) :
  (∀ x, f x = g x) → mapM f l = mapM g l.
Proof. intros Hfg. induction l as [|x l IH]; cbn; [done|]. by rewrite Hfg, IH. Qed.

(** Two lists of keyed items with the same items, no key twice, are sorted
    to the same list. *)
Lemma stable_sort_Permutation {A} (l l' : list (string * A)) :
  NoDup l.*1 → l ≡ₚ l' → stable_sort l = stable_sort l'.
Proof.
  intros Hnd Hperm.
  apply (StronglySorted_unique_strong (fun x y => str_le x.1 y.1));
    [|apply stable_sort_sorted..|by rewrite !stable_sort_perm].
  intros x1 x2 Hx1 Hx2 H12 H21.
  rewrite stable_sort_perm in Hx1. rewrite stable_sort_perm, <-Hperm in Hx2.
  pose proof (str_le_antisym _ _ H12 H21) as Hkey.
  destruct x1 as [k1 a1], x2 as [k2 a2]; cbn in Hkey; subst k2.
  f_equal. by eapply NoDup_keys_item.
Qed.

Lemma keys_fmap {A} (key : A → result string) (l : list (string * A)) :
  Forall (fun kx => key kx.2 = Ok kx.1) l → key <$> l.*2 = Ok <$> l.*1.
Proof.
  induction 1 as [|kx l Hkx _ IH]; [done|].
  rewrite !fmap_cons. by rewrite Hkx, IH.
Qed.

(** When no key occurs twice, [sorted] does not depend on the order of its
    input. *)
Lemma sorted_Permutation {A} (key : A → result string) (xs xs' ys : list A) :
  xs ≡ₚ xs' → sorted key xs = Ok ys → NoDup (key <$> ys) → sorted key xs' = Ok ys.
Proof.
  intros Hperm. unfold sorted.
  destruct (mapM _ xs) as [l|e] eqn:Hl; cbn; [|done]. intros [= <-] Hnd.
  destruct (result_mapM_Permutation _ _ _ _ Hperm Hl) as (l' & -> & Hl'); cbn.
  apply keys_spec in Hl as [_ Hall].
  do 2 f_equal. apply stable_sort_Permutation; [|done].
  rewrite (keys_fmap key (stable_sort l)) in Hnd by (by rewrite stable_sort_perm).
  apply NoDup_fmap_1 in Hnd.
  by rewrite stable_sort_perm, Hl' in Hnd.
Qed.

(** X2.  When no two children have the same [sort_name], the listing does
    not depend on the order in which the party rows are stored. *)
Theorem children_storage_order_free (st st' : store) (l : list concrete) :
  party st ≡ₚ party st' →
  person st = person st' →
  organization st = organization st' →
  run PartyManager.children st = Ok l →
  NoDup (sort_name <$> l) →
  run PartyManager.children st' = Ok l.
Proof.
  intros Hperm Hper Horg. rewrite !run_children.
  destruct (mapM _ (party st)) as [cs|e] eqn:Hcs; cbn; [|done].
  intros Hl Hnd.
  destruct (result_mapM_Permutation _ _ _ _ Hperm Hcs) as (cs' & Hcs' & Hperm').
  assert (mapM (fun p => run (child p) st') (party st') = Ok cs') as ->.
  { rewrite <-Hcs'. apply result_mapM_ext. intros p.
    by rewrite !run_child, Hper, Horg. }
  cbn. by eapply sorted_Permutation.
Qed.

End ListingFacts.

(** ** The listing: null names, and the queries it sends *)

Section ListingQueries.
Import Py PyEq Party.

(** [sort_name] raises nothing but [TypeError]. *)
Lemma sort_name_raise (c : concrete) (e : exn) : sort_name c = Raise e → e = TypeError.
Proof.
  destruct c as [x|o]; cbn [sort_name]; [|done]. rewrite person_sort_name.
  destruct (Person.middle_name (DateMixin.fields x)),
    (Person.last_name (DateMixin.fields x)); congruence.
Qed.

Lemma resolved_elem_of (ps : list Party.t) (cs : list concrete) (st : store) (p : Party.t) :
  Forall2 (fun p c => run (child p) st = Ok c) ps cs →
  p ∈ ps → ∃ c, c ∈ cs ∧ run (child p) st = Ok c.
Proof.
  induction 1 as [|q c ps cs Hc _ IH]; intros Hin.
  - by apply elem_of_nil in Hin.
  - apply elem_of_cons in Hin as [->|Hin].
    + exists c. split; [by left|done].
    + destruct (IH Hin) as (c' & Hc' & Hp). exists c'. split; [by right|done].
Qed.

(** X3.  One person with a null middle or last name is enough to make the
    whole listing raise [TypeError], in a store in which every party row
    has a child. *)
Theorem children_null_name_raise (st : store) (p : Party.t) (x : Person.t) :
  Forall (fun q => is_Some (person st !! id q) ∨ is_Some (organization st !! id q))
    (party st) →
  p ∈ party st →
  person st !! id p = Some x →
  Person.middle_name (DateMixin.fields x) = None ∨
  Person.last_name (DateMixin.fields x) = None →
  run PartyManager.children st = Raise TypeError.
Proof.
  intros Hres Hin Hx Hnull.
  destruct (resolve_all _ _ Hres) as [cs Hcs].
  destruct (resolved_elem_of _ _ _ _ Hcs Hin) as (c & Hc & Hp).
  rewrite run_child, Hx in Hp. injection Hp as <-.
  apply result_mapM_Ok in Hcs. rewrite run_children, Hcs; cbn.
  unfold sorted.
  rewrite (result_mapM_Raise _ _ TypeError); [done| |].
  - intros c e _. destruct (sort_name c) as [k|e'] eqn:Hk; cbn; [done|].
    intros [= <-]. by eapply sort_name_raise.
  - exists (IsPerson x). split; [done|]. cbn [sort_name]. rewrite person_sort_name.
    destruct Hnull as [-> | ->]; [done|].
    by destruct (Person.middle_name (DateMixin.fields x)).
Qed.

Lemma queries_bind {A B} (m : DB A) (f : A → DB B) st :
  queries (m ≫= f) st =
  queries m st ++ match run m st with
                  | Ok a => queries (f a) st
                  | Raise _ => []
                  end.
Proof.
  unfold queries, run, mbind, DB_bind.
  destruct (m st) as [[a|e] qs]; cbn; [|by rewrite app_nil_r].
  by destruct (f a st).
Qed.

Lemma queries_mapM {A B} (f : A → DB B) (l : list A) (k : list B) st :
  mapM (fun x => run (f x) st) l = Ok k →
  queries (mapM f l) st = concat ((fun x => queries (f x) st) <$> l).
Proof.
  revert k. induction l as [|x l IH]; intros k; cbn [mapM]; [done|].
  cbn. destruct (run (f x) st) as [y|e] eqn:Hy; cbn; [|done].
  destruct (mapM _ l) as [ys|e] eqn:Hys; cbn; [|done]. intros _.
  rewrite queries_bind, Hy, queries_bind, run_mapM, Hys.
  rewrite (IH ys eq_refl). cbn. by rewrite app_nil_r.
Qed.

Lemma child_queries_length (ps : list Party.t) (st : store) :
  length (concat ((fun p => queries (child p) st) <$> ps)) =
  (length ps + length (filter (fun p => person st !! id p = None) ps))%nat.
Proof.
  induction ps as [|p ps IH]; [done|].
  rewrite fmap_cons, filter_cons. cbn [concat]. rewrite length_app, IH, queries_child.
  destruct (decide (person st !! id p = None)) as [->|Hp]; cbn [length]; [lia|].
  destruct (person st !! id p); [cbn [length]; lia|done].
Qed.

(** X4.  In a store in which every party row has a child, the listing
    sends the query for the party rows and then, row after row, the lookup
    of the person, followed by the lookup of the organization when no
    person has the key.  For [n] rows these are [n + 1] queries and one
    more for every row that is not a person; computing the sort names and
    sorting sends none. *)
Theorem children_queries (st : store) (cs : list concrete) :
  Forall2 (fun p c => run (child p) st = Ok c) (party st) cs →
  queries PartyManager.children st =
    SelectParties :: concat ((fun p => queries (child p) st) <$> party st) ∧
  length (queries PartyManager.children st) =
    (1 + length (party st) +
     length (filter (fun p => person st !! id p = None) (party st)))%nat.
Proof.
  intros Hcs%result_mapM_Ok.
  assert (queries PartyManager.children st =
          SelectParties :: concat ((fun p => queries (child p) st) <$> party st)) as ->.
  { unfold PartyManager.children. rewrite queries_bind. cbn.
    rewrite queries_bind, run_mapM, Hcs, (queries_mapM _ _ _ _ Hcs).
    cbn. by rewrite app_nil_r. }
  split; [done|]. cbn [length]. rewrite child_queries_length. lia.
Qed.

End ListingQueries.

(** ** The key [0] *)

Section KeyZero.
Import DateMixin.
Context {F : Type}.
Implicit Types (self : DateMixin.t F) (table : gmap Z (DateMixin.t F)).

(** X5.  The key [0] counts as no key in [save], but is a key for the
    database: an instance with the key [0] is written under [0] by every
    save and keeps that key, and no save ever sets its [date_modified]. *)
Theorem save_key_zero (fresh : Z) self table (edits : list (datetime * F))
    (now : datetime) (f : F) :
  id self = Some 0 →
  id (resave fresh (edits ++ [(now, f)]) self table).1 = Some 0 ∧
  date_modified (resave fresh (edits ++ [(now, f)]) self table).1 = date_modified self ∧
  (resave fresh (edits ++ [(now, f)]) self table).2 !! 0 =
    Some (Build (Some 0) (date_added self) (date_modified self) f).
Proof.
  intros Hid.
  pose proof (resave_id fresh edits self table 0 Hid) as Hid'.
  pose proof (resave_key_zero fresh edits self table Hid) as Hmod'.
  pose proof (resave_date_added fresh edits self table) as Hadd.
  rewrite resave_snoc.
  destruct (resave fresh edits self table) as [s tb]; cbn [fst snd] in *.
  unfold save, Model_save. cbn [id date_added date_modified fields].
  rewrite Hid'. cbn. rewrite Hmod', Hadd. split_and!; [done..|].
  apply lookup_insert_eq.
Qed.

End KeyZero.

(** ** [Website.search_index] *)

Section WebsiteFacts.
Import Py.

(** X6.  The [search_index] of a website is the outcome of joining its name
    and its url with one space: the two strings with a space between
    them, and [TypeError] when the name or the url is null. *)
Theorem website_search_index (self : Website.t) :
  Website.search_index self =
    join " " [Website.name (DateMixin.fields self); Website.url (DateMixin.fields self)] ∧
  Website.search_index self =
    match Website.name (DateMixin.fields self), Website.url (DateMixin.fields self) with
    | Some n, Some u => Ok (n +:+ " " +:+ u)
    | _, _ => Raise TypeError
    end.
Proof.
  unfold Website.search_index.
  destruct (Website.name _) as [n|], (Website.url _) as [u|]; cbn; try done.
  by rewrite append_assoc.
Qed.

End WebsiteFacts.

(** ** The patterns of [urls.py] and the permalinks *)

Section UrlFacts.
Import Urls.
Context (Nd : N → bool).
Hypothesis Nd_ascii : ascii_digits_only Nd = true.

(** Below 128 the table holds the ten digits and nothing else. *)
Lemma Nd_below_128 (c : N) : (c < 128)%N → Nd c = ascii_digit c.
Proof using Nd_ascii.
  intros Hc. unfold ascii_digits_only in Nd_ascii.
  rewrite forallb_forall in Nd_ascii.
  apply Bool.eqb_prop, Nd_ascii.
  rewrite <-(N2Nat.id c). apply in_map, in_seq. lia.
Qed.

Lemma Nd_digit (c : N) : ascii_digit c = true → Nd c = true.
Proof using Nd_ascii.
  intros Hc. rewrite Nd_below_128; [done|].
  unfold ascii_digit in Hc. apply andb_true_iff in Hc as [_ Hc%N.leb_le]. lia.
Qed.

(** A digit is none of the other characters below 128. *)
Lemma Nd_not (a c : N) :
  (a < 128)%N → ascii_digit a = false → Nd c = true → (a =? c)%N = false.
Proof using Nd_ascii.
  intros Ha Hd Hc. apply N.eqb_neq. intros <-.
  rewrite Nd_below_128, Hd in Hc; done.
Qed.

Lemma codes_app (a b : string) : codes (a +:+ b) = codes a ++ codes b.
Proof.
  induction a as [|c a IH]; [done|].
  change (String c a +:+ b) with (String c (a +:+ b)). cbn [codes app].
  by rewrite IH.
Qed.

Lemma codes_inj (a b : string) : codes a = codes b → a = b.
Proof.
  revert b. induction a as [|c a IH]; intros [|d b]; cbn [codes]; try done.
  intros [= Hc Hs]. f_equal; [|by apply IH].
  by rewrite <-(Ascii.ascii_N_embedding c), <-(Ascii.ascii_N_embedding d), Hc.
Qed.

Lemma chars_codes (s : string) : chars (codes s) = s.
Proof.
  induction s as [|c s IH]; cbn [codes chars]; [done|].
  by rewrite Ascii.ascii_N_embedding, IH.
Qed.

Lemma strip_app (text s : unicode) : strip text (text ++ s) = Some s.
Proof.
  induction text as [|a text IH]; [by destruct s|].
  cbn [app strip]. by rewrite N.eqb_refl.
Qed.

Lemma strip_Some (text s s' : unicode) : strip text s = Some s' → s = text ++ s'.
Proof.
  revert s. induction text as [|a text IH]; intros s; cbn [strip].
  - by intros [= ->].
  - destruct s as [|b s]; [done|].
    destruct (N.eqb_spec a b) as [->|]; [|done].
    intros ->%IH. done.
Qed.

Lemma all_digits_app (a b : unicode) :
  all_digits Nd (a ++ b) = all_digits Nd a && all_digits Nd b.
Proof. apply forallb_app. Qed.

(** Where the text after the digits does not start with a digit, [\d+]
    takes all the digits, if the rest of the expression then matches. *)
Lemma digits_then_app {R} (k : unicode → unicode → option R) (d rest seen : unicode)
    (r : R) :
  all_digits Nd d = true → d ≠ [] →
  match rest with c :: _ => Nd c = false | [] => True end →
  k (seen ++ d) rest = Some r →
  digits_then Nd k seen (d ++ rest) = Some r.
Proof.
  revert seen. induction d as [|c d IH]; intros seen Hd Hne Hrest Hk; [done|].
  cbn [app digits_then]. unfold all_digits in Hd. cbn [forallb] in Hd.
  apply andb_true_iff in Hd as [-> Hd].
  destruct d as [|c' d].
  - cbn [app].
    assert (digits_then Nd k (seen ++ [c]) rest = None) as ->; [|done].
    destruct rest as [|c' rest]; [done|]. cbn [digits_then]. by rewrite Hrest.
  - rewrite (IH (seen ++ [c])); [done..|].
    by rewrite <-app_assoc.
Qed.

(** What [\d+] has matched, when it has: a string of digits, not empty,
    at the start of the input, with the rest of the expression matching
    what follows. *)
Lemma digits_then_Some {R} (k : unicode → unicode → option R) (s seen : unicode) (r : R) :
  digits_then Nd k seen s = Some r →
  ∃ d rest, s = d ++ rest ∧ d ≠ [] ∧ all_digits Nd d = true ∧
            k (seen ++ d) rest = Some r.
Proof.
  revert seen. induction s as [|c s IH]; intros seen; cbn [digits_then]; [done|].
  destruct (Nd c) eqn:Hc; [|done].
  destruct (digits_then Nd k (seen ++ [c]) s) as [r'|] eqn:Hrec.
  - intros [= ->]. destruct (IH _ Hrec) as (d & rest & -> & _ & Hd & Hk).
    exists (c :: d), rest. split_and!; [done|done| |].
    + unfold all_digits in *. cbn [forallb]. by rewrite Hc, Hd.
    + by rewrite <-Hk, <-app_assoc.
  - intros Hk. exists [c], s. split_and!; [done|done| |done].
    unfold all_digits. cbn [forallb]. by rewrite Hc.
Qed.

Lemma string_of_uint_digits (u : Decimal.uint) :
  all_digits Nd (codes (NilEmpty.string_of_uint u)) = true.
Proof using Nd_ascii.
  unfold all_digits.
  induction u; cbn [NilEmpty.string_of_uint codes forallb]; [done|..];
    by rewrite IHu, Nd_digit.
Qed.

(** The text of a key that is not negative: digits, and at least one. *)
Lemma unicode_id_digits (n : Z) :
  0 ≤ n →
  all_digits Nd (unicode_id (Some n)) = true ∧ unicode_id (Some n) ≠ [].
Proof using Nd_ascii.
  intros Hn. unfold unicode_id. destruct n as [|p|p]; [| |lia].
  - split; [|done]. unfold all_digits. cbn. by rewrite Nd_digit.
  - cbn [Z.to_int NilEmpty.string_of_int]. split; [apply string_of_uint_digits|].
    pose proof (Unsigned.to_uint_nonnil p) as Hnil.
    by destruct (Pos.to_uint p).
Qed.

(** The text of no key, and of a negative key, does not start with a
    digit. *)
Lemma unicode_id_no_digit (pk : option Z) :
  pk = None ∨ (∃ n, pk = Some n ∧ n < 0) →
  ∃ c s, unicode_id pk = c :: s ∧ Nd c = false.
Proof using Nd_ascii.
  intros [->|(n & -> & Hn)].
  - eexists _, _. split; [reflexivity|]. by rewrite Nd_below_128.
  - destruct n as [|p|p]; [lia..|].
    eexists _, _. split; [reflexivity|]. by rewrite Nd_below_128.
Qed.

(** The text of a key tells the key. *)
Lemma unicode_id_inj (pk pk' : option Z) : unicode_id pk = unicode_id pk' → pk = pk'.
Proof.
  unfold unicode_id. intros Heq%codes_inj.
  assert (∀ n, NilEmpty.string_of_int (Z.to_int n) ≠ "None") as Hnone.
  { intros n Hn. pose proof (NilEmpty.isi (Z.to_int n)) as Hi.
    rewrite Hn in Hi. discriminate Hi. }
  destruct pk as [n|], pk' as [n'|]; [|by destruct (Hnone n)|
    by destruct (Hnone n')|done].
  f_equal. apply DecimalZ.to_int_inj.
  pose proof (NilEmpty.isi (Z.to_int n)) as H1.
  pose proof (NilEmpty.isi (Z.to_int n')) as H2.
  rewrite Heq in H1. congruence.
Qed.

Lemma strip_app_app (base text s : unicode) :
  strip (base ++ text) (base ++ s) = strip text s.
Proof.
  induction base as [|a base IH]; [done|].
  cbn [app strip]. by rewrite N.eqb_refl.
Qed.

(** The four expressions of one kind of party, on the path of the detail
    page: the list and the form for adding do not match it, the detail
    page does, with the digits as [object_id]. *)
Lemma match_list_detail (base : string) (d tail : unicode) :
  d ≠ [] → tail ≠ [] →
  regex_match Nd [Chars base] [] (codes base ++ d ++ tail) = None.
Proof.
  intros Hd Htail. cbn [regex_match]. rewrite strip_app.
  destruct d as [|c d]; [done|]. destruct d as [|c' d]; [by destruct tail|done].
Qed.

Lemma match_add_detail (base : string) (d tail : unicode) :
  all_digits Nd d = true → d ≠ [] →
  regex_match Nd [Chars (base +:+ "add/")] [] (codes base ++ d ++ tail) = None.
Proof using Nd_ascii.
  intros Hd Hne. cbn [regex_match]. rewrite codes_app, strip_app_app.
  destruct d as [|c d]; [done|]. unfold all_digits in Hd. cbn [forallb] in Hd.
  apply andb_true_iff in Hd as [Hc _].
  change (codes "add/") with [97; 100; 100; 47]%N.
  cbn [app strip]. by rewrite (Nd_not 97 c).
Qed.

Lemma match_detail (base group : string) (d tail : unicode) :
  all_digits Nd d = true → d ≠ [] → at_end tail = true →
  regex_match Nd [Chars base; Digits group; Chars "/"] []
    (codes base ++ d ++ codes "/" ++ tail) = Some [(group, d)].
Proof using Nd_ascii.
  intros Hd Hne Htail. cbn [regex_match]. rewrite strip_app.
  apply digits_then_app; [done|done|by apply (Nd_below_128 47)|].
  cbn [regex_match app]. rewrite (strip_app (codes "/") tail). by rewrite Htail.
Qed.

(** The same expression on a text that does not start with a digit. *)
Lemma match_detail_no_digit (base group : string) (c : N) (s : unicode) :
  Nd c = false →
  regex_match Nd [Chars base; Digits group; Chars "/"] []
    (codes base ++ (c :: s) ++ codes "/") = None.
Proof.
  intros Hc. cbn [regex_match]. rewrite strip_app.
  cbn [app digits_then]. by rewrite Hc.
Qed.

Lemma resolve_in_app (us1 us2 : list url) (u : url) (s : unicode)
    (found : list (string * unicode)) :
  Forall (fun v => regex_match Nd (regex v) [] s = None) us1 →
  regex_match Nd (regex u) [] s = Some found →
  resolve_in Nd (us1 ++ u :: us2) s = Return (u, found).
Proof.
  intros Hus Hu. induction Hus as [|v us1 Hv _ IH]; cbn [app resolve_in].
  - by rewrite Hu.
  - by rewrite Hv.
Qed.

(** The path of the detail page of an organization resolves to the view
    [organization_detail], and the digits are its [object_id]. *)
Lemma resolve_organization_detail (d tail : unicode) :
  all_digits Nd d = true → d ≠ [] → at_end tail = true →
  resolve Nd (codes "organizations/" ++ d ++ codes "/" ++ tail) =
    Return (Url [Chars "organizations/"; Digits "object_id"; Chars "/"]
              "addressbook.views.organization_detail" []
              "addressbook_organization_detail",
            [("object_id", d)]).
Proof using Nd_ascii.
  intros Hd Hne Htail. unfold resolve.
  change urlpatterns with
    (take 7 urlpatterns ++
     Url [Chars "organizations/"; Digits "object_id"; Chars "/"]
       "addressbook.views.organization_detail" [] "addressbook_organization_detail"
     :: drop 8 urlpatterns).
  apply resolve_in_app; [|by apply match_detail].
  repeat apply Forall_cons_2; [done..| | |apply Forall_nil_2].
  - by apply (match_list_detail "organizations/").
  - by apply (match_add_detail "organizations/").
Qed.

(** The path of the detail page of a person resolves to the view
    [person_detail]. *)
Lemma resolve_person_detail (d tail : unicode) :
  all_digits Nd d = true → d ≠ [] → at_end tail = true →
  resolve Nd (codes "people/" ++ d ++ codes "/" ++ tail) =
    Return (Url [Chars "people/"; Digits "object_id"; Chars "/"]
              "addressbook.views.person_detail" []
              "addressbook_person_detail",
            [("object_id", d)]).
Proof using Nd_ascii.
  intros Hd Hne Htail. unfold resolve.
  change urlpatterns with
    (take 3 urlpatterns ++
     Url [Chars "people/"; Digits "object_id"; Chars "/"]
       "addressbook.views.person_detail" [] "addressbook_person_detail"
     :: drop 4 urlpatterns).
  apply resolve_in_app; [|by apply match_detail].
  repeat apply Forall_cons_2; [done| | |apply Forall_nil_2].
  - by apply (match_list_detail "people/").
  - by apply (match_add_detail "people/").
Qed.

(** [reverse] for the two names that the permalinks use: the one pattern
    of that name is filled in, and has to match what it was filled with. *)
Lemma reverse_in_organization_detail (v : unicode) :
  reverse_in Nd urlpatterns "addressbook_organization_detail" [("object_id", v)] =
  match regex_match Nd [Chars "organizations/"; Digits "object_id"; Chars "/"] []
          (codes "organizations/" ++ v ++ codes "/") with
  | Some _ => Return (codes "organizations/" ++ v ++ codes "/")
  | None => Raised NoReverseMatch
  end.
Proof. reflexivity. Qed.

Lemma reverse_in_person_detail (v : unicode) :
  reverse_in Nd urlpatterns "addressbook_person_detail" [("object_id", v)] =
  match regex_match Nd [Chars "people/"; Digits "object_id"; Chars "/"] []
          (codes "people/" ++ v ++ codes "/") with
  | Some _ => Return (codes "people/" ++ v ++ codes "/")
  | None => Raised NoReverseMatch
  end.
Proof. reflexivity. Qed.

Lemma organization_url_spec (mount : unicode) (self : Organization.t) :
  Organization_get_absolute_url Nd mount self =
  match regex_match Nd [Chars "organizations/"; Digits "object_id"; Chars "/"] []
          (codes "organizations/" ++ unicode_id (DateMixin.id self) ++ codes "/") with
  | Some _ =>
      Return (mount ++ codes "organizations/" ++ unicode_id (DateMixin.id self) ++ codes "/")
  | None => Raised NoReverseMatch
  end.
Proof.
  unfold Organization_get_absolute_url, reverse.
  rewrite reverse_in_organization_detail. by destruct (regex_match _ _ _ _).
Qed.

Lemma person_url_spec (mount : unicode) (self : Person.t) :
  Person_get_absolute_url Nd mount self =
  match regex_match Nd [Chars "people/"; Digits "object_id"; Chars "/"] []
          (codes "people/" ++ unicode_id (DateMixin.id self) ++ codes "/") with
  | Some _ => Return (mount ++ codes "people/" ++ unicode_id (DateMixin.id self) ++ codes "/")
  | None => Raised NoReverseMatch
  end.
Proof.
  unfold Person_get_absolute_url, reverse.
  rewrite reverse_in_person_detail. by destruct (regex_match _ _ _ _).
Qed.

Lemma match_detail_path (base group : string) (d : unicode) :
  all_digits Nd d = true → d ≠ [] →
  regex_match Nd [Chars base; Digits group; Chars "/"] [] (codes base ++ d ++ codes "/")
    = Some [(group, d)].
Proof using Nd_ascii. intros Hd Hne. by apply (match_detail base group d []). Qed.

Lemma organization_url_Return (mount : unicode) (self : Organization.t) (n : Z) :
  DateMixin.id self = Some n → 0 ≤ n →
  Organization_get_absolute_url Nd mount self =
    Return (mount ++ codes "organizations/" ++ unicode_id (Some n) ++ codes "/").
Proof using Nd_ascii.
  intros Hid Hn. destruct (unicode_id_digits n Hn) as [Hd Hne].
  rewrite organization_url_spec, Hid. by rewrite match_detail_path.
Qed.

Lemma person_url_Return (mount : unicode) (self : Person.t) (n : Z) :
  DateMixin.id self = Some n → 0 ≤ n →
  Person_get_absolute_url Nd mount self =
    Return (mount ++ codes "people/" ++ unicode_id (Some n) ++ codes "/").
Proof using Nd_ascii.
  intros Hid Hn. destruct (unicode_id_digits n Hn) as [Hd Hne].
  rewrite person_url_spec, Hid. by rewrite match_detail_path.
Qed.

Lemma unicode_id_of_int (n : Z) :
  Z.of_int <$> NilEmpty.int_of_string (chars (unicode_id (Some n))) = Some n.
Proof.
  unfold unicode_id. rewrite chars_codes, NilEmpty.isi. cbn. by rewrite DecimalZ.of_to.
Qed.

(** X7.  The permalink of an organization whose key is not negative is the
    mount point followed by [organizations/], the decimal digits of the key
    and [/]; the resolver of [urls.py] sends that path to the view
    [organization_detail] with the digits as [object_id], and the digits
    read back as the key. *)
Theorem organization_permalink_resolves (mount : unicode) (self : Organization.t) (n : Z) :
  DateMixin.id self = Some n → 0 ≤ n →
  Organization_get_absolute_url Nd mount self =
    Return (mount ++ codes "organizations/" ++ unicode_id (Some n) ++ codes "/") ∧
  resolve Nd (codes "organizations/" ++ unicode_id (Some n) ++ codes "/") =
    Return (Url [Chars "organizations/"; Digits "object_id"; Chars "/"]
              "addressbook.views.organization_detail" []
              "addressbook_organization_detail",
            [("object_id", unicode_id (Some n))]) ∧
  Z.of_int <$> NilEmpty.int_of_string (chars (unicode_id (Some n))) = Some n.
Proof using Nd_ascii.
  intros Hid Hn. destruct (unicode_id_digits n Hn) as [Hd Hne].
  split_and!; [by apply organization_url_Return| |apply unicode_id_of_int].
  by apply (resolve_organization_detail _ []).
Qed.

(** X8.  The permalink of a person whose key is not negative is the mount
    point followed by [people/], the decimal digits of the key and [/];
    the resolver of [urls.py] sends that path to the view [person_detail]
    with the digits as [object_id], and the digits read back as the key. *)
Theorem person_permalink_resolves (mount : unicode) (self : Person.t) (n : Z) :
  DateMixin.id self = Some n → 0 ≤ n →
  Person_get_absolute_url Nd mount self =
    Return (mount ++ codes "people/" ++ unicode_id (Some n) ++ codes "/") ∧
  resolve Nd (codes "people/" ++ unicode_id (Some n) ++ codes "/") =
    Return (Url [Chars "people/"; Digits "object_id"; Chars "/"]
              "addressbook.views.person_detail" []
              "addressbook_person_detail",
            [("object_id", unicode_id (Some n))]) ∧
  Z.of_int <$> NilEmpty.int_of_string (chars (unicode_id (Some n))) = Some n.
Proof using Nd_ascii.
  intros Hid Hn. destruct (unicode_id_digits n Hn) as [Hd Hne].
  split_and!; [by apply person_url_Return| |apply unicode_id_of_int].
  by apply (resolve_person_detail _ []).
Qed.

(** X9.  A permalink raises [NoReverseMatch] exactly for an instance
    that has no key yet, or a negative key: [None] and a number with a
    sign are not matched by [\d+]. *)
Theorem permalink_needs_key (mount : unicode) (o : Organization.t) (p : Person.t) :
  (Organization_get_absolute_url Nd mount o = Raised NoReverseMatch ↔
     DateMixin.id o = None ∨ ∃ n, DateMixin.id o = Some n ∧ n < 0) ∧
  (Person_get_absolute_url Nd mount p = Raised NoReverseMatch ↔
     DateMixin.id p = None ∨ ∃ n, DateMixin.id p = Some n ∧ n < 0).
Proof using Nd_ascii.
  split.
  - split.
    + intros Hraise. destruct (DateMixin.id o) as [n|] eqn:Hid; [|by left].
      right. exists n. split; [done|].
      destruct (decide (0 ≤ n)) as [Hn|Hn]; [|lia].
      pose proof (organization_url_Return mount o n Hid Hn). congruence.
    + intros Hkey. destruct (unicode_id_no_digit _ Hkey) as (c & s & Hs & Hc).
      rewrite organization_url_spec, Hs.
      by rewrite (match_detail_no_digit "organizations/" "object_id" c s Hc).
  - split.
    + intros Hraise. destruct (DateMixin.id p) as [n|] eqn:Hid; [|by left].
      right. exists n. split; [done|].
      destruct (decide (0 ≤ n)) as [Hn|Hn]; [|lia].
      pose proof (person_url_Return mount p n Hid Hn). congruence.
    + intros Hkey. destruct (unicode_id_no_digit _ Hkey) as (c & s & Hs & Hc).
      rewrite person_url_spec, Hs.
      by rewrite (match_detail_no_digit "people/" "object_id" c s Hc).
Qed.

Lemma organization_url_inv (mount u : unicode) (self : Organization.t) :
  Organization_get_absolute_url Nd mount self = Return u →
  u = mount ++ codes "organizations/" ++ unicode_id (DateMixin.id self) ++ codes "/".
Proof.
  rewrite organization_url_spec. destruct (regex_match _ _ _ _); [|done]. by intros [= <-].
Qed.

Lemma person_url_inv (mount u : unicode) (self : Person.t) :
  Person_get_absolute_url Nd mount self = Return u →
  u = mount ++ codes "people/" ++ unicode_id (DateMixin.id self) ++ codes "/".
Proof.
  rewrite person_url_spec. destruct (regex_match _ _ _ _); [|done]. by intros [= <-].
Qed.

(** X10.  The permalink tells the row: two organizations with the same
    permalink have the same key, two persons likewise, and no permalink of
    an organization is the permalink of a person. *)
Theorem permalinks_distinct (mount u : unicode) :
  (∀ o1 o2 : Organization.t,
     Organization_get_absolute_url Nd mount o1 = Return u →
     Organization_get_absolute_url Nd mount o2 = Return u →
     DateMixin.id o1 = DateMixin.id o2) ∧
  (∀ p1 p2 : Person.t,
     Person_get_absolute_url Nd mount p1 = Return u →
     Person_get_absolute_url Nd mount p2 = Return u →
     DateMixin.id p1 = DateMixin.id p2) ∧
  (∀ (o : Organization.t) (p : Person.t),
     Organization_get_absolute_url Nd mount o = Return u →
     Person_get_absolute_url Nd mount p ≠ Return u).
Proof.
  split_and!.
  - intros o1 o2 H1%organization_url_inv H2%organization_url_inv.
    rewrite H1 in H2. do 2 apply app_inv_head in H2.
    apply app_inv_tail in H2. by apply unicode_id_inj.
  - intros p1 p2 H1%person_url_inv H2%person_url_inv.
    rewrite H1 in H2. do 2 apply app_inv_head in H2.
    apply app_inv_tail in H2. by apply unicode_id_inj.
  - intros o p H1%organization_url_inv H2%person_url_inv.
    rewrite H1 in H2. by apply app_inv_head in H2.
Qed.

End UrlFacts.

(** ** No pattern of [urls.py] hides another *)

Section UrlExclusive.
Import Urls.
Context (Nd : N → bool).
Hypothesis Nd_ascii : ascii_digits_only Nd = true.

Lemma at_end_inv (s : unicode) : at_end s = true → s = [] ∨ s = [10%N].
Proof.
  destruct s as [|c [|c' s]]; cbn [at_end]; [by left| |done].
  intros ->%N.eqb_eq. by right.
Qed.

Lemma at_end_digit (c : N) (s : unicode) : Nd c = true → at_end (c :: s) = false.
Proof using Nd_ascii.
  intros Hc. destruct s as [|c' s]; [|done]. cbn [at_end].
  rewrite N.eqb_sym. by apply (Nd_not Nd Nd_ascii 10).
Qed.

(** A run of digits that ends before a character which is no digit is
    found in one way only. *)
Lemma digits_split_unique (d1 d2 : unicode) (c1 c2 : N) (x1 x2 : unicode) :
  all_digits Nd d1 = true → all_digits Nd d2 = true →
  Nd c1 = false → Nd c2 = false →
  d1 ++ c1 :: x1 = d2 ++ c2 :: x2 →
  d1 = d2 ∧ c1 :: x1 = c2 :: x2.
Proof.
  unfold all_digits.
  revert d2. induction d1 as [|a d1 IH]; intros [|b d2] H1 H2 Hc1 Hc2 Heq.
  - done.
  - injection Heq as -> _. cbn [forallb] in H2. by rewrite Hc1 in H2.
  - injection Heq as -> _. cbn [forallb] in H1. by rewrite Hc2 in H1.
  - injection Heq as -> Heq. cbn [forallb] in H1, H2.
    apply andb_true_iff in H1 as [_ H1]. apply andb_true_iff in H2 as [_ H2].
    destruct (IH d2 H1 H2 Hc1 Hc2 Heq) as [-> ?]. done.
Qed.

(** What a group of digits followed by a text that starts with [/] has
    matched. *)
Lemma match_digits_Some (group text : string) (s : unicode)
    (found kw : list (string * unicode)) :
  regex_match Nd [Digits group; Chars (String (Ascii.ascii_of_nat 47) text)] found s
    = Some kw →
  ∃ d tail, s = d ++ 47%N :: (codes text ++ tail) ∧
            all_digits Nd d = true ∧ d ≠ [] ∧ at_end tail = true ∧
            kw = found ++ [(group, d)].
Proof.
  cbn [regex_match]. intros (d & rest & -> & Hne & Hd & Hk)%digits_then_Some.
  destruct (strip _ rest) as [tail|] eqn:Hstrip; [|done].
  apply strip_Some in Hstrip as ->.
  destruct (at_end tail) eqn:Htail; [|done]. injection Hk as <-.
  by exists d, tail.
Qed.

(** The detail page and the form for editing are matched by no common
    path. *)
Lemma detail_edit_exclusive (group : string) (r : unicode)
    (kw1 kw2 : list (string * unicode)) :
  regex_match Nd [Digits group; Chars "/"] [] r = Some kw1 →
  regex_match Nd [Digits group; Chars "/edit/"] [] r = Some kw2 →
  False.
Proof using Nd_ascii.
  intros (d1 & t1 & -> & Hd1 & _ & Ht1 & _)%(match_digits_Some group "").
  intros (d2 & t2 & Heq & Hd2 & _ & _ & _)%(match_digits_Some group "edit/").
  apply digits_split_unique in Heq as [_ Heq];
    [|done|done|by apply (Nd_below_128 Nd Nd_ascii 47)..].
  injection Heq as Heq. assert (t1 = codes "edit/" ++ t2) as -> by exact Heq.
  discriminate Ht1.
Qed.

(** The expressions of one kind of party, two by two, after the text
    they have in common. *)
Lemma root_add_exclusive (r : unicode) (kw1 kw2 : list (string * unicode)) :
  regex_match Nd [] [] r = Some kw1 → regex_match Nd [Chars "add/"] [] r = Some kw2 →
  False.
Proof.
  intros H1 H2. cbn [regex_match] in H2.
  destruct (strip (codes "add/") r) as [t|] eqn:Hstrip; [|done].
  apply strip_Some in Hstrip as ->. discriminate H1.
Qed.

Lemma root_digits_exclusive (group : string) (r : unicode) (rest : list token)
    (kw1 kw2 : list (string * unicode)) :
  regex_match Nd [] [] r = Some kw1 →
  regex_match Nd (Digits group :: rest) [] r = Some kw2 → False.
Proof using Nd_ascii.
  intros H1 H2. cbn [regex_match] in H1, H2.
  apply digits_then_Some in H2 as (d & t & -> & Hne & Hd & _).
  destruct d as [|c d]; [done|]. unfold all_digits in Hd. cbn [forallb] in Hd.
  apply andb_true_iff in Hd as [Hc _].
  cbn [app] in H1. by rewrite (at_end_digit c _ Hc) in H1.
Qed.

Lemma add_digits_exclusive (group : string) (r : unicode) (rest : list token)
    (kw1 kw2 : list (string * unicode)) :
  regex_match Nd [Chars "add/"] [] r = Some kw1 →
  regex_match Nd (Digits group :: rest) [] r = Some kw2 → False.
Proof using Nd_ascii.
  intros H1 H2. cbn [regex_match] in H1.
  destruct (strip (codes "add/") r) as [t|] eqn:Hstrip; [|done].
  apply strip_Some in Hstrip as ->.
  change (codes "add/") with [97; 100; 100; 47]%N in H2.
  cbn [regex_match app digits_then] in H2.
  by rewrite (Nd_below_128 Nd Nd_ascii 97) in H2.
Qed.

Lemma family_exclusive (r : unicode) (t1 t2 : list token)
    (kw1 kw2 : list (string * unicode)) :
  t1 ∈ [[]; [Chars "add/"]; [Digits "object_id"; Chars "/"];
        [Digits "object_id"; Chars "/edit/"]] →
  t2 ∈ [[]; [Chars "add/"]; [Digits "object_id"; Chars "/"];
        [Digits "object_id"; Chars "/edit/"]] →
  regex_match Nd t1 [] r = Some kw1 →
  regex_match Nd t2 [] r = Some kw2 →
  t1 = t2.
Proof using Nd_ascii.
  rewrite !elem_of_cons, !elem_of_nil.
  intros [->|[->|[->|[->|[]]]]] [->|[->|[->|[->|[]]]]] M1 M2; try done; exfalso;
    first [ by eapply root_add_exclusive
          | by eapply root_digits_exclusive
          | by eapply add_digits_exclusive
          | by eapply detail_edit_exclusive ].
Qed.

Lemma family_shape (base : string) (s : unicode) (t : list token)
    (kw : list (string * unicode)) :
  regex_match Nd (Chars base :: t) [] s = Some kw →
  ∃ r, s = codes base ++ r ∧ regex_match Nd t [] r = Some kw.
Proof.
  cbn [regex_match]. destruct (strip (codes base) s) as [r|] eqn:Hstrip; [|done].
  apply strip_Some in Hstrip as ->. by exists r.
Qed.

Lemma strip_append (base text s : unicode) :
  strip (base ++ text) s = strip base s ≫= strip text.
Proof.
  revert s. induction base as [|a base IH]; intros s; [done|].
  destruct s as [|b s]; [done|]. cbn [app strip]. by destruct (a =? b)%N.
Qed.

Lemma family_add_shape (base text : string) (s : unicode)
    (kw : list (string * unicode)) :
  regex_match Nd [Chars (base +:+ text)] [] s = Some kw →
  ∃ r, s = codes base ++ r ∧ regex_match Nd [Chars text] [] r = Some kw.
Proof.
  cbn [regex_match]. rewrite codes_app, strip_append.
  destruct (strip (codes base) s) as [r|] eqn:Hstrip; [|done].
  apply strip_Some in Hstrip as ->. by exists r.
Qed.

(** Every pattern puts the path in one of three classes: the empty path,
    the paths under [people/] and the paths under [organizations/]; within
    a class, what follows tells the four patterns apart. *)
Lemma pattern_shape (u : url) (s : unicode) (kw : list (string * unicode)) :
  u ∈ urlpatterns →
  regex_match Nd (regex u) [] s = Some kw →
  (regex u = [] ∧ at_end s = true) ∨
  ∃ base t r,
    (base = "people/" ∨ base = "organizations/") ∧
    t ∈ [[]; [Chars "add/"]; [Digits "object_id"; Chars "/"];
         [Digits "object_id"; Chars "/edit/"]] ∧
    s = codes base ++ r ∧
    regex_match Nd t [] r = Some kw ∧
    regex u = match t with
              | [Chars text] => [Chars (base +:+ text)]
              | _ => Chars base :: t
              end.
Proof.
  intros Hin%list_elem_of_In. vm_compute in Hin.
  destruct Hin as [<-|[<-|[<-|[<-|[<-|[<-|[<-|[<-|[<-|[]]]]]]]]]]; cbn [regex]; intros M.
  - left. split; [done|]. cbn [regex_match] in M. by destruct (at_end s).
  - right. apply family_shape in M as (r & -> & M).
    exists "people/", [], r. split_and!; [by left|set_solver|done..].
  - right. apply (family_add_shape "people/" "add/") in M as (r & -> & M).
    exists "people/", [Chars "add/"], r. split_and!; [by left|set_solver|done..].
  - right. apply family_shape in M as (r & -> & M).
    exists "people/", [Digits "object_id"; Chars "/"], r.
    split_and!; [by left|set_solver|done..].
  - right. apply family_shape in M as (r & -> & M).
    exists "people/", [Digits "object_id"; Chars "/edit/"], r.
    split_and!; [by left|set_solver|done..].
  - right. apply family_shape in M as (r & -> & M).
    exists "organizations/", [], r. split_and!; [by right|set_solver|done..].
  - right. apply (family_add_shape "organizations/" "add/") in M as (r & -> & M).
    exists "organizations/", [Chars "add/"], r. split_and!; [by right|set_solver|done..].
  - right. apply family_shape in M as (r & -> & M).
    exists "organizations/", [Digits "object_id"; Chars "/"], r.
    split_and!; [by right|set_solver|done..].
  - right. apply family_shape in M as (r & -> & M).
    exists "organizations/", [Digits "object_id"; Chars "/edit/"], r.
    split_and!; [by right|set_solver|done..].
Qed.

(** No two patterns have the same expression. *)
Lemma urlpatterns_regex_inj (u1 u2 : url) :
  u1 ∈ urlpatterns → u2 ∈ urlpatterns → regex u1 = regex u2 → u1 = u2.
Proof.
  intros H1%list_elem_of_In H2%list_elem_of_In. vm_compute in H1, H2.
  destruct H1 as [<-|[<-|[<-|[<-|[<-|[<-|[<-|[<-|[<-|[]]]]]]]]]];
    destruct H2 as [<-|[<-|[<-|[<-|[<-|[<-|[<-|[<-|[<-|[]]]]]]]]]];
    cbn [regex]; intros Heq; first [reflexivity | discriminate Heq].
Qed.

(** A path is matched by one pattern at most. *)
Lemma urlpatterns_exclusive (u1 u2 : url) (s : unicode)
    (kw1 kw2 : list (string * unicode)) :
  u1 ∈ urlpatterns → u2 ∈ urlpatterns →
  regex_match Nd (regex u1) [] s = Some kw1 →
  regex_match Nd (regex u2) [] s = Some kw2 →
  u1 = u2.
Proof using Nd_ascii.
  intros H1 H2 M1 M2. apply urlpatterns_regex_inj; [done..|].
  destruct (pattern_shape u1 s kw1 H1 M1) as [[-> E1]|(b1 & t1 & r1 & Hb1 & Ht1 & E1 & N1 & ->)];
    destruct (pattern_shape u2 s kw2 H2 M2) as [[-> E2]|(b2 & t2 & r2 & Hb2 & Ht2 & E2 & N2 & ->)].
  - done.
  - exfalso. rewrite E2 in E1. destruct Hb2 as [->| ->]; discriminate E1.
  - exfalso. rewrite E1 in E2. destruct Hb1 as [->| ->]; discriminate E2.
  - rewrite E1 in E2.
    destruct Hb1 as [->| ->], Hb2 as [->| ->]; try discriminate E2;
      apply app_inv_head in E2 as <-;
      by rewrite (family_exclusive r1 t1 t2 kw1 kw2 Ht1 Ht2 N1 N2).
Qed.

Lemma resolve_in_Return (us : list url) (s : unicode) (u : url)
    (kw : list (string * unicode)) :
  resolve_in Nd us s = Return (u, kw) →
  u ∈ us ∧ regex_match Nd (regex u) [] s = Some kw.
Proof.
  induction us as [|v us IH]; cbn [resolve_in]; [done|].
  destruct (regex_match Nd (regex v) [] s) as [found|] eqn:Hv.
  - intros [= <- <-]. split; [by left|done].
  - intros [Hin Hm]%IH. split; [by right|done].
Qed.

Lemma resolve_in_Raised (us : list url) (s : unicode) (e : exn) :
  resolve_in Nd us s = Raised e →
  e = Resolver404 ∧ ∀ u, u ∈ us → regex_match Nd (regex u) [] s = None.
Proof.
  induction us as [|v us IH]; cbn [resolve_in].
  - intros [= <-]. split; [done|]. intros u Hu. by apply elem_of_nil in Hu.
  - destruct (regex_match Nd (regex v) [] s) as [found|] eqn:Hv; [done|].
    intros [-> Hall]%IH. split; [done|].
    intros u [->|Hu]%elem_of_cons; [done|by apply Hall].
Qed.

(** A resolver over patterns of which a path matches one at most answers
    with the pattern that matches, wherever it stands. *)
Lemma resolve_in_exclusive (us : list url) (s : unicode) (u : url)
    (kw : list (string * unicode)) :
  (∀ u1 u2 kw1 kw2, u1 ∈ us → u2 ∈ us →
     regex_match Nd (regex u1) [] s = Some kw1 →
     regex_match Nd (regex u2) [] s = Some kw2 → u1 = u2) →
  u ∈ us → regex_match Nd (regex u) [] s = Some kw →
  resolve_in Nd us s = Return (u, kw).
Proof.
  intros Hex Hin Hm.
  destruct (resolve_in Nd us s) as [[v found]|e] eqn:Hres.
  - apply resolve_in_Return in Hres as [Hv Hfound].
    assert (v = u) as -> by (by eapply Hex). congruence.
  - apply resolve_in_Raised in Hres as [_ Hall]. rewrite (Hall u Hin) in Hm. done.
Qed.

(** X11.  No pattern of [urls.py] hides another one: the resolver answers
    with a pattern exactly when that pattern is in the list and matches the
    path, and the answer stays the same when the patterns are listed in
    another order. *)
Theorem resolve_unambiguous (s : unicode) :
  (∀ u kw, resolve Nd s = Return (u, kw) ↔
           u ∈ urlpatterns ∧ regex_match Nd (regex u) [] s = Some kw) ∧
  (∀ us, us ≡ₚ urlpatterns → resolve_in Nd us s = resolve Nd s).
Proof using Nd_ascii.
  split.
  - intros u kw. split; [apply resolve_in_Return|].
    intros [Hin Hm]. apply resolve_in_exclusive; [|done..].
    intros u1 u2 kw1 kw2. apply urlpatterns_exclusive.
  - intros us Hperm. unfold resolve.
    destruct (resolve_in Nd urlpatterns s) as [[u kw]|e] eqn:Hres.
    + apply resolve_in_Return in Hres as [Hin Hm].
      apply resolve_in_exclusive; [|by rewrite Hperm|done].
      intros u1 u2 kw1 kw2 H1 H2. rewrite Hperm in H1, H2.
      by apply urlpatterns_exclusive.
    + apply resolve_in_Raised in Hres as [-> Hall].
      destruct (resolve_in Nd us s) as [[u kw]|e] eqn:Hres'.
      * apply resolve_in_Return in Hres' as [Hin Hm]. rewrite Hperm in Hin.
        rewrite (Hall u Hin) in Hm. done.
      * by apply resolve_in_Raised in Hres' as [-> _].
Qed.

Lemma detail_shape (base : string) (s : unicode) (kw : list (string * unicode)) :
  regex_match Nd [Chars base; Digits "object_id"; Chars "/"] [] s = Some kw →
  ∃ d tail, s = codes base ++ d ++ codes "/" ++ tail ∧ all_digits Nd d = true ∧
            d ≠ [] ∧ at_end tail = true ∧ kw = [("object_id", d)].
Proof.
  intros (r & -> & M)%family_shape.
  apply (match_digits_Some "object_id" "") in M as (d & tail & -> & Hd & Hne & Htail & ->).
  by exists d, tail.
Qed.

(** X12.  The paths that reach the two detail views: [people/], or
    [organizations/], then one digit or more of the table [Nd], then [/],
    and nothing after it but, possibly, one line feed.  The digits are
    handed over as they stand. *)
Theorem detail_paths (s : unicode) (u : url) (kw : list (string * unicode)) :
  (resolve Nd s = Return (u, kw) ∧ view u = "addressbook.views.person_detail" ↔
     ∃ d tail, s = codes "people/" ++ d ++ codes "/" ++ tail ∧
       all_digits Nd d = true ∧ d ≠ [] ∧ at_end tail = true ∧
       kw = [("object_id", d)] ∧
       u = Url [Chars "people/"; Digits "object_id"; Chars "/"]
             "addressbook.views.person_detail" [] "addressbook_person_detail") ∧
  (resolve Nd s = Return (u, kw) ∧ view u = "addressbook.views.organization_detail" ↔
     ∃ d tail, s = codes "organizations/" ++ d ++ codes "/" ++ tail ∧
       all_digits Nd d = true ∧ d ≠ [] ∧ at_end tail = true ∧
       kw = [("object_id", d)] ∧
       u = Url [Chars "organizations/"; Digits "object_id"; Chars "/"]
             "addressbook.views.organization_detail" []
             "addressbook_organization_detail").
Proof using Nd_ascii.
  split; split.
  - intros [[Hin M]%resolve_in_Return Hview].
    apply list_elem_of_In in Hin. vm_compute in Hin.
    destruct Hin as [<-|[<-|[<-|[<-|[<-|[<-|[<-|[<-|[<-|[]]]]]]]]]];
      try discriminate Hview.
    apply detail_shape in M as (d & tail & -> & Hd & Hne & Htail & ->).
    by exists d, tail.
  - intros (d & tail & -> & Hd & Hne & Htail & -> & ->).
    split; [by apply resolve_person_detail|done].
  - intros [[Hin M]%resolve_in_Return Hview].
    apply list_elem_of_In in Hin. vm_compute in Hin.
    destruct Hin as [<-|[<-|[<-|[<-|[<-|[<-|[<-|[<-|[<-|[]]]]]]]]]];
      try discriminate Hview.
    apply detail_shape in M as (d & tail & -> & Hd & Hne & Htail & ->).
    by exists d, tail.
  - intros (d & tail & -> & Hd & Hne & Htail & -> & ->).
    split; [by apply resolve_organization_detail|done].
Qed.

End UrlExclusive.

(** ** The order of persons in the listing *)

Section FirstNames.
Import Py.

Lemma compare_app_Lt (a b x y : string) :
  String.compare a b = Lt → String.prefix a b = false →
  String.compare (a +:+ x) (b +:+ y) = Lt.
Proof.
  revert b. induction a as [|c a IH]; intros [|c' b]; cbn [String.compare String.prefix];
    try done.
  change (String c a +:+ x) with (String c (a +:+ x)).
  change (String c' b +:+ y) with (String c' (b +:+ y)).
  cbn [String.compare].
  destruct (Ascii.compare c c') eqn:Hc; [|done..].
  apply Ascii.compare_eq_iff in Hc as ->.
  destruct (Ascii.ascii_dec c' c'); [|done]. apply IH.
Qed.

(** X13.  Persons are sorted by first name before anything else: of two
    persons without a null name, the one whose first name is the smaller
    string, and not the beginning of the other first name, has the smaller
    [sort_name], whatever their middle and last names. *)
Theorem person_sort_name_first_name (p q : Person.t) (kp kq : string) :
  Person.sort_name p = Ok kp →
  Person.sort_name q = Ok kq →
  str_lt (Person.first_name (DateMixin.fields p))
         (Person.first_name (DateMixin.fields q)) = true →
  String.prefix (Person.first_name (DateMixin.fields p))
                (Person.first_name (DateMixin.fields q)) = false →
  str_lt kp kq = true.
Proof.
  rewrite !person_sort_name.
  destruct (Person.middle_name (DateMixin.fields p)) as [mp|]; [|done].
  destruct (Person.last_name (DateMixin.fields p)) as [lp|]; [|done].
  destruct (Person.middle_name (DateMixin.fields q)) as [mq|]; [|done].
  destruct (Person.last_name (DateMixin.fields q)) as [lq|]; [|done].
  intros [= <-] [= <-] Hlt Hpre. unfold str_lt in *.
  destruct (String.compare (Person.first_name _) (Person.first_name _)) eqn:Hc;
    [done| |done].
  by rewrite (compare_app_Lt _ _ _ _ Hc Hpre).
Qed.

End FirstNames.

(** ** The further theorems with hypotheses, at sample rows *)

Section Witnesses2.
Import Py PyEq Party.

(** [children_ties_keep_storage_order] at the two organizations named
    "Acme". *)
Lemma children_ties_namesakes :
  Forall2 (fun p c => run (child p) Sample2.namesakes = Ok c)
    (party Sample2.namesakes)
    [IsOrganization (Sample.organization 3 "Acme");
     IsPerson Sample2.bob;
     IsOrganization (Sample.organization 5 "Acme")] ∧
  run PartyManager.children Sample2.namesakes =
    Ok [IsOrganization (Sample.organization 3 "Acme");
        IsOrganization (Sample.organization 5 "Acme");
        IsPerson Sample2.bob] ∧
  filter (fun c => sort_name c = Ok "Acme")
    [IsOrganization (Sample.organization 3 "Acme");
     IsOrganization (Sample.organization 5 "Acme");
     IsPerson Sample2.bob] =
  filter (fun c => sort_name c = Ok "Acme")
    [IsOrganization (Sample.organization 3 "Acme");
     IsPerson Sample2.bob;
     IsOrganization (Sample.organization 5 "Acme")].
Proof.
  assert (Forall2 (fun p c => run (child p) Sample2.namesakes = Ok c)
            (party Sample2.namesakes)
            [IsOrganization (Sample.organization 3 "Acme");
             IsPerson Sample2.bob;
             IsOrganization (Sample.organization 5 "Acme")]) as Hcs
    by (repeat (apply List.Forall2_cons; [vm_compute; reflexivity|]);
        apply List.Forall2_nil).
  assert (run PartyManager.children Sample2.namesakes =
            Ok [IsOrganization (Sample.organization 3 "Acme");
                IsOrganization (Sample.organization 5 "Acme");
                IsPerson Sample2.bob]) as Hl
    by (vm_compute; reflexivity).
  exact (conj Hcs (conj Hl
           (children_ties_keep_storage_order Sample2.namesakes _ _ "Acme" Hcs Hl))).
Defined.

(** [children_storage_order_free] at the sample store and the same store
    with its party rows in the opposite order. *)
Lemma children_storage_order_free_contacts :
  party Sample.contacts ≡ₚ party Sample2.contacts_reversed ∧
  run PartyManager.children Sample.contacts =
    Ok [IsOrganization (Sample.organization 3 "Acme");
        IsPerson Sample2.alice; IsPerson Sample2.bob] ∧
  NoDup (sort_name <$> [IsOrganization (Sample.organization 3 "Acme");
                        IsPerson Sample2.alice; IsPerson Sample2.bob]) ∧
  run PartyManager.children Sample2.contacts_reversed =
    Ok [IsOrganization (Sample.organization 3 "Acme");
        IsPerson Sample2.alice; IsPerson Sample2.bob].
Proof.
  assert (party Sample.contacts ≡ₚ party Sample2.contacts_reversed) as Hperm
    by (symmetry;
        change (reverse (party Sample.contacts) ≡ₚ party Sample.contacts);
        apply reverse_Permutation).
  assert (run PartyManager.children Sample.contacts =
            Ok [IsOrganization (Sample.organization 3 "Acme");
                IsPerson Sample2.alice; IsPerson Sample2.bob]) as Hl
    by (vm_compute; reflexivity).
  assert (NoDup (sort_name <$> [IsOrganization (Sample.organization 3 "Acme");
                                IsPerson Sample2.alice; IsPerson Sample2.bob])) as Hnd
    by (apply (bool_decide_unpack _); vm_compute; exact I).
  exact (conj Hperm (conj Hl (conj Hnd
           (children_storage_order_free Sample.contacts Sample2.contacts_reversed _
              Hperm eq_refl eq_refl Hl Hnd)))).
Defined.

(** [children_null_name_raise] at the store that holds the person built
    from the first name alone. *)
Lemma children_null_name_raise_jane :
  Party.Build 1 ∈ party Sample2.with_jane ∧
  person Sample2.with_jane !! 1 = Some Sample.jane ∧
  Person.middle_name (DateMixin.fields Sample.jane) = None ∧
  run PartyManager.children Sample2.with_jane = Raise TypeError.
Proof.
  assert (Forall (fun q => is_Some (person Sample2.with_jane !! id q) ∨
                           is_Some (organization Sample2.with_jane !! id q))
            (party Sample2.with_jane)) as Hres.
  { repeat apply Forall_cons_2; [right|left|apply Forall_nil_2];
      vm_compute; eexists; reflexivity. }
  assert (Party.Build 1 ∈ party Sample2.with_jane) as Hin
    by (apply elem_of_cons; right; apply elem_of_cons; left; reflexivity).
  assert (person Sample2.with_jane !! id (Party.Build 1) = Some Sample.jane) as Hx
    by (vm_compute; reflexivity).
  assert (Person.middle_name (DateMixin.fields Sample.jane) = None) as Hm
    by reflexivity.
  exact (conj Hin (conj Hx (conj Hm
           (children_null_name_raise Sample2.with_jane (Party.Build 1) Sample.jane
              Hres Hin Hx (or_introl Hm))))).
Defined.

(** [children_queries] at the sample store: five queries for three
    rows, one of which is not a person. *)
Lemma children_queries_contacts :
  Forall2 (fun p c => run (child p) Sample.contacts = Ok c) (party Sample.contacts)
    [IsPerson Sample2.bob; IsPerson Sample2.alice;
     IsOrganization (Sample.organization 3 "Acme")] ∧
  queries PartyManager.children Sample.contacts =
    [SelectParties; SelectPerson 1; SelectPerson 2; SelectPerson 3; SelectOrganization 3] ∧
  length (queries PartyManager.children Sample.contacts) = 5%nat.
Proof.
  assert (Forall2 (fun p c => run (child p) Sample.contacts = Ok c)
            (party Sample.contacts)
            [IsPerson Sample2.bob; IsPerson Sample2.alice;
             IsOrganization (Sample.organization 3 "Acme")]) as Hcs
    by (repeat (apply List.Forall2_cons; [vm_compute; reflexivity|]);
        apply List.Forall2_nil).
  destruct (children_queries Sample.contacts _ Hcs) as [Hqs Hlen].
  split; [exact Hcs|]. split.
  - rewrite Hqs. vm_compute. reflexivity.
  - rewrite Hlen. vm_compute. reflexivity.
Defined.

(** [save_key_zero] at an email address with the key [0], edited and
    saved twice. *)
Lemma save_key_zero_email :
  DateMixin.id Sample2.email_zero = Some 0 ∧
  DateMixin.date_modified
    (DateMixin.resave 1 ([(20, Sample2.email_edit)] ++ [(30, Sample2.email_edit)])
       Sample2.email_zero ∅).1 = None ∧
  (DateMixin.resave 1 ([(20, Sample2.email_edit)] ++ [(30, Sample2.email_edit)])
     Sample2.email_zero ∅).2 !! 0 =
    Some (DateMixin.Build (Some 0) 10 None Sample2.email_edit).
Proof.
  assert (DateMixin.id Sample2.email_zero = Some 0) as Hid by reflexivity.
  destruct (save_key_zero 1 Sample2.email_zero ∅ [(20, Sample2.email_edit)] 30
              Sample2.email_edit Hid) as (_ & Hmod & Hrow).
  exact (conj Hid (conj Hmod Hrow)).
Defined.

End Witnesses2.

(** ** The theorems on the permalinks and on the order, at sample rows *)

Section Witnesses3.
Import Py Urls.

(** [organization_permalink_resolves] at the organization with the key
    [35], under the mount point [/]. *)
Lemma organization_permalink_35 :
  ascii_digits_only Sample2.digits = true ∧
  DateMixin.id (Sample.organization 35 "Acme") = Some 35 ∧
  0 ≤ 35 ∧
  Organization_get_absolute_url Sample2.digits (codes "/") (Sample.organization 35 "Acme") =
    Return (codes "/organizations/35/") ∧
  resolve Sample2.digits (codes "organizations/35/") =
    Return (Url [Chars "organizations/"; Digits "object_id"; Chars "/"]
              "addressbook.views.organization_detail" []
              "addressbook_organization_detail",
            [("object_id", codes "35")]).
Proof.
  assert (ascii_digits_only Sample2.digits = true) as Hnd by (vm_compute; reflexivity).
  assert (DateMixin.id (Sample.organization 35 "Acme") = Some 35) as Hid by reflexivity.
  assert (0 ≤ 35) as Hn by lia.
  destruct (organization_permalink_resolves Sample2.digits Hnd (codes "/")
              (Sample.organization 35 "Acme") 35 Hid Hn) as (Hurl & Hres & _).
  exact (conj Hnd (conj Hid (conj Hn (conj Hurl Hres)))).
Defined.

(** [person_permalink_resolves] at the person with the key [12]. *)
Lemma person_permalink_12 :
  ascii_digits_only Sample2.digits = true ∧
  DateMixin.id (Sample.person 12 "Ada" None None) = Some 12 ∧
  0 ≤ 12 ∧
  Person_get_absolute_url Sample2.digits (codes "/") (Sample.person 12 "Ada" None None) =
    Return (codes "/people/12/") ∧
  resolve Sample2.digits (codes "people/12/") =
    Return (Url [Chars "people/"; Digits "object_id"; Chars "/"]
              "addressbook.views.person_detail" []
              "addressbook_person_detail",
            [("object_id", codes "12")]).
Proof.
  assert (ascii_digits_only Sample2.digits = true) as Hnd by (vm_compute; reflexivity).
  assert (DateMixin.id (Sample.person 12 "Ada" None None) = Some 12) as Hid
    by reflexivity.
  assert (0 ≤ 12) as Hn by lia.
  destruct (person_permalink_resolves Sample2.digits Hnd (codes "/")
              (Sample.person 12 "Ada" None None) 12 Hid Hn) as (Hurl & Hres & _).
  exact (conj Hnd (conj Hid (conj Hn (conj Hurl Hres)))).
Defined.

(** [permalink_needs_key] at an organization that has not been saved. *)
Lemma permalink_needs_key_unsaved :
  ascii_digits_only Sample2.digits = true ∧
  DateMixin.id Sample2.unsaved_organization = None ∧
  Organization_get_absolute_url Sample2.digits (codes "/") Sample2.unsaved_organization =
    Raised NoReverseMatch.
Proof.
  assert (ascii_digits_only Sample2.digits = true) as Hnd by (vm_compute; reflexivity).
  assert (DateMixin.id Sample2.unsaved_organization = None) as Hid by reflexivity.
  exact (conj Hnd (conj Hid
           (proj2 (proj1 (permalink_needs_key Sample2.digits Hnd (codes "/")
                            Sample2.unsaved_organization
                            (Sample.person 12 "Ada" None None)))
              (or_introl Hid)))).
Defined.

(** [permalinks_distinct] at two instances of the organization with the
    key [35]. *)
Lemma permalinks_distinct_35 :
  Organization_get_absolute_url Sample2.digits (codes "/") (Sample.organization 35 "Acme") =
    Return (codes "/organizations/35/") ∧
  Organization_get_absolute_url Sample2.digits (codes "/")
    (Sample.organization 35 "Acme Ltd") = Return (codes "/organizations/35/") ∧
  DateMixin.id (Sample.organization 35 "Acme") =
    DateMixin.id (Sample.organization 35 "Acme Ltd").
Proof.
  assert (Organization_get_absolute_url Sample2.digits (codes "/")
            (Sample.organization 35 "Acme") = Return (codes "/organizations/35/")) as H1
    by (vm_compute; reflexivity).
  assert (Organization_get_absolute_url Sample2.digits (codes "/")
            (Sample.organization 35 "Acme Ltd") = Return (codes "/organizations/35/")) as H2
    by (vm_compute; reflexivity).
  exact (conj H1 (conj H2
           (proj1 (permalinks_distinct Sample2.digits (codes "/")
                     (codes "/organizations/35/")) _ _ H1 H2))).
Defined.

(** [resolve_unambiguous] at the path of the form for adding a person,
    with the patterns in the opposite order. *)
Lemma resolve_unambiguous_add :
  ascii_digits_only Sample2.digits = true ∧
  rev urlpatterns ≡ₚ urlpatterns ∧
  resolve_in Sample2.digits (rev urlpatterns) (codes "people/add/") =
    resolve Sample2.digits (codes "people/add/").
Proof.
  assert (ascii_digits_only Sample2.digits = true) as Hnd by (vm_compute; reflexivity).
  assert (rev urlpatterns ≡ₚ urlpatterns) as Hperm
    by (symmetry; apply Permutation_rev).
  exact (conj Hnd (conj Hperm
           (proj2 (resolve_unambiguous Sample2.digits Hnd (codes "people/add/")) _ Hperm))).
Defined.

(** [detail_paths] at the path [people/], the Arabic-Indic digits one and
    two, [/]: with a table that holds these digits, it reaches the detail
    page of a person, and the two digits are the [object_id]. *)
Lemma detail_paths_arabic_indic :
  ascii_digits_only Sample2.digits = true ∧
  resolve Sample2.digits (codes "people/" ++ [1633; 1634]%N ++ codes "/") =
    Return (Url [Chars "people/"; Digits "object_id"; Chars "/"]
              "addressbook.views.person_detail" [] "addressbook_person_detail",
            [("object_id", [1633; 1634]%N)]).
Proof.
  assert (ascii_digits_only Sample2.digits = true) as Hnd by (vm_compute; reflexivity).
  assert (∃ d tail : unicode,
            codes "people/" ++ [1633; 1634]%N ++ codes "/"
              = codes "people/" ++ d ++ codes "/" ++ tail ∧
            all_digits Sample2.digits d = true ∧ d ≠ [] ∧ at_end tail = true ∧
            [("object_id", [1633; 1634]%N)] = [("object_id", d)] ∧
            Url [Chars "people/"; Digits "object_id"; Chars "/"]
              "addressbook.views.person_detail" [] "addressbook_person_detail"
            = Url [Chars "people/"; Digits "object_id"; Chars "/"]
                "addressbook.views.person_detail" [] "addressbook_person_detail") as Hshape
    by (exists [1633; 1634]%N, []; split_and!;
        [reflexivity|reflexivity|discriminate|reflexivity..]).
  exact (conj Hnd
           (proj1 (proj2 (proj1 (detail_paths Sample2.digits Hnd _ _ _)) Hshape))).
Defined.

(** [person_sort_name_first_name] at Alice Zed and Bob Young. *)
Lemma person_sort_name_alice_bob :
  Person.sort_name Sample2.alice = Ok "Alice  Zed" ∧
  Person.sort_name Sample2.bob = Ok "Bob  Young" ∧
  str_lt "Alice" "Bob" = true ∧
  String.prefix "Alice" "Bob" = false ∧
  str_lt "Alice  Zed" "Bob  Young" = true.
Proof.
  assert (Person.sort_name Sample2.alice = Ok "Alice  Zed") as Ha by reflexivity.
  assert (Person.sort_name Sample2.bob = Ok "Bob  Young") as Hb by reflexivity.
  assert (str_lt "Alice" "Bob" = true) as Hlt by reflexivity.
  assert (String.prefix "Alice" "Bob" = false) as Hpre by reflexivity.
  exact (conj Ha (conj Hb (conj Hlt (conj Hpre
           (person_sort_name_first_name Sample2.alice Sample2.bob _ _ Ha Hb Hlt Hpre))))).
Defined.

End Witnesses3.
